(** * go-pidioder: the pi-blaster RGB light server (main.go)

    The repository holds two revisions of [main.go]:

    - the first revision, where [setAll] fades every channel step by step
      and the [Color] channel carries functions ([chan func(RGB)]);
      it is embedded in [Module Fade];
    - the second revision, where [setAll] applies a fixed per-channel
      correction and the [Color] channel carries reply channels
      ([chan chan RGB]) served by a goroutine with a 5 second timeout;
      it is embedded in [Module Gamma].

    The declarations both revisions share word for word ([RGB],
    [attemptPiBlasterStart], [mustOpenPiBlaster], [setPin],
    [setChannelInteger], [parseUint8OrZero]) come first. *)

From Stdlib Require Import ZArith List String Ascii Bool Lia.
From Stdlib Require Import Floats.PrimFloat Floats.FloatOps Floats.SpecFloat.
From Stdlib Require Import Numbers.Cyclic.Int63.Uint63.
From stdpp Require Import base option strings gmap.
Import ListNotations.

Local Open Scope string_scope.
Local Open Scope Z_scope.

(* ===================================================================== *)
(** ** Machine data: uint8 and float64 *)

(** A Go [uint8] is a [Z] in [0, 256); arithmetic wraps around. *)
Definition uint8 (v : Z) : Prop := 0 <= v < 256.

Definition wrap8 (z : Z) : Z := z mod 256.

(** A Go [float64] is a primitive binary64 float. *)
Definition float64 := PrimFloat.float.

(** [float64(v)] for an unsigned integer below 2^63 (exact below 2^53). *)
Definition float64_of_Z (z : Z) : float64 := PrimFloat.of_uint63 (Uint63.of_Z z).

(** The integer part of a float, rounding toward zero, and whether the float
    is a finite number at all. *)
Definition trunc_f64 (f : float64) : option Z :=
  match Prim2SF f with
  | S754_zero _ => Some 0
  | S754_finite s m e =>
      let a := if 0 <=? e then Z.shiftl (Z.pos m) e else Z.shiftr (Z.pos m) (- e) in
      Some (if s then - a else a)
  | S754_infinity _ | S754_nan => None
  end.

(** [uint8(f)]: Go truncates toward zero; the result is implementation
    specific when the value does not fit, which the model renders as the low
    eight bits (and 0 for NaN and infinities). *)
Definition uint8_of_f64 (f : float64) : Z :=
  match trunc_f64 f with
  | Some z => wrap8 z
  | None => 0
  end.

(* ===================================================================== *)
(** ** fmt: the verbs %d and %f *)

Definition digit_char (d : Z) : ascii := ascii_of_N (48 + Z.to_N d).

(** The [k] low decimal digits of [n], most significant first. *)
Fixpoint fixed_digits (k : nat) (n : Z) (acc : string) : string :=
  match k with
  | O => acc
  | S k' => fixed_digits k' (n / 10) (String (digit_char (n mod 10)) acc)
  end.

(** The decimal digits of a non-negative [n], most significant first; a
    number has no more decimal digits than binary ones, which bounds the
    loop. *)
Fixpoint decimal_digits (fuel : nat) (n : Z) (acc : string) : string :=
  let acc' := String (digit_char (n mod 10)) acc in
  match fuel with
  | O => acc'
  | S fuel' => if n <? 10 then acc' else decimal_digits fuel' (n / 10) acc'
  end.

(** [%d] of an unsigned integer. *)
Definition fmt_d (n : Z) : string := decimal_digits (Z.to_nat (Z.log2 n)) n "".

(** Round the exact rational [m * 2^e] to the nearest integer, ties to even. *)
Definition round_half_even (m e : Z) : Z :=
  if 0 <=? e then Z.shiftl m e
  else
    let d := Z.shiftl 1 (- e) in
    let q := m / d in
    let twice_rem := 2 * (m mod d) in
    if twice_rem <? d then q
    else if d <? twice_rem then q + 1
    else if Z.even q then q else q + 1.

(** [%f]: six digits after the point, correctly rounded from the exact binary
    value. *)
Definition fmt_f (f : float64) : string :=
  match Prim2SF f with
  | S754_nan => "NaN"
  | S754_infinity s => if s then "-Inf" else "+Inf"
  | S754_zero s => (if s then "-" else "") ++ "0.000000"
  | S754_finite s m e =>
      let scaled := round_half_even (Z.pos m * 1000000) e in
      (if s then "-" else "")
        ++ fmt_d (scaled / 1000000) ++ "." ++ fixed_digits 6 (scaled mod 1000000) ""
  end.

(* ===================================================================== *)
(** ** Errors and the operating system *)

Inductive Errno := ENOENT | EACCES | EPIPE.

(** The values of Go's [error] interface that this program can meet. *)
Inductive error :=
| PathError (op path : string) (errno : Errno)   (* *os.PathError *)
| ErrInvalid                                      (* os.ErrInvalid: nil *os.File *)
| ExecError (msg : string)                        (* what exec.Cmd.Run returns *)
| errors_New (text : string)                      (* errors.New *)
| NumError (func num : string) (out_of_range : bool). (* *strconv.NumError *)

Definition Errno_Error (e : Errno) : string :=
  match e with
  | ENOENT => "no such file or directory"
  | EACCES => "permission denied"
  | EPIPE => "broken pipe"
  end.

Definition quote_char : string := String (ascii_of_N 34) EmptyString.

Definition error_Error (e : error) : string :=
  match e with
  | PathError op path errno => op ++ " " ++ path ++ ": " ++ Errno_Error errno
  | ErrInvalid => "invalid argument"
  | ExecError msg => msg
  | errors_New text => text
  | NumError func num out_of_range =>
      "strconv." ++ func ++ ": parsing " ++ quote_char ++ num ++ quote_char ++ ": "
        ++ (if out_of_range then "value out of range" else "invalid syntax")
  end.

(** An [*os.File]: nil, or the handle of the opened /dev/pi-blaster. *)
Inductive File := nil_File | pi_blaster_File.

(** What the file system holds at /dev/pi-blaster. *)
Inductive Fifo := FifoMissing | FifoDenied | FifoPresent.

(** What running the [pi-blaster] command does: the daemon comes up and
    creates its FIFO, or the command fails. *)
Inductive Daemon := DaemonStarts | DaemonFails (msg : string).

(** The calls the program makes to the operating system, oldest first. *)
Inductive OsCall :=
| CallOpen                                (* os.OpenFile("/dev/pi-blaster", ...) *)
| CallExec                                (* exec.Command("pi-blaster").Run() *)
| CallWrite (data : string) (ok : bool).  (* write(2) on the FIFO *)

Record World := mkWorld {
  fifo : Fifo;
  daemon : Daemon;
  reader_gone : bool;        (* writes on the FIFO fail with EPIPE *)
  calls : list OsCall;
  log : list string          (* the lines the log package printed *)
}.

Definition add_call (c : OsCall) (w : World) : World :=
  mkWorld (fifo w) (daemon w) (reader_gone w) (calls w ++ [c]) (log w).

Definition set_fifo (f : Fifo) (w : World) : World :=
  mkWorld f (daemon w) (reader_gone w) (calls w) (log w).

Definition add_log (line : string) (w : World) : World :=
  mkWorld (fifo w) (daemon w) (reader_gone w) (calls w) (log w ++ [line]).

(* ===================================================================== *)
(** ** The program state and its monad *)

Record RGB := mkRGB { R : Z; G : Z; B : Z }.

Definition wf_RGB (c : RGB) : Prop := uint8 (R c) /\ uint8 (G c) /\ uint8 (B c).

(** The command-line flags, read-only after [flag.Parse]. *)
Record Flags := mkFlags {
  flag_R : Z; flag_G : Z; flag_B : Z; flag_Cooldown : Z
}.

Definition default_flags : Flags := mkFlags 17 22 27 10.

(** The fields of [Blaster] that are not channels. *)
Record Blaster := mkBlaster { pipe : File; r : Z; g : Z; b : Z }.

(** [NewBlaster()]: every field that is not a channel has its zero value. *)
Definition NewBlaster : Blaster := mkBlaster nil_File 0 0 0.

Record St := mkSt { blaster : Blaster; world : World }.

(** A call returns a value, or the process exits ([os.Exit], as [log.Fatal]
    does). *)
Inductive Res (A : Type) :=
| Ret (a : A) (s : St)
| Exit (code : Z) (s : St).
Arguments Ret {A} a s.
Arguments Exit {A} code s.

Definition M (A : Type) : Type := St -> Res A.

Definition ret {A} (a : A) : M A := fun s => Ret a s.

Definition bind {A C} (m : M A) (k : A -> M C) : M C :=
  fun s => match m s with
           | Ret a s' => k a s'
           | Exit code s' => Exit code s'
           end.

Notation "x <- m ;; k" := (bind m (fun x => k))
  (at level 63, m at next level, right associativity).
Notation "m ;;; k" := (bind m (fun _ => k))
  (at level 63, right associativity).

Definition get_blaster : M Blaster := fun s => Ret (blaster s) s.

Definition put_blaster (bl : Blaster) : M unit :=
  fun s => Ret tt (mkSt bl (world s)).

(** [log.Fatal(v)]: print, then [os.Exit(1)]. *)
Definition log_Fatal {A} (line : string) : M A :=
  fun s => Exit 1 (mkSt (blaster s) (add_log line (world s))).

(** [os.OpenFile("/dev/pi-blaster", os.O_RDWR, os.ModeNamedPipe)]. *)
Definition os_OpenFile : M (File * option error) :=
  fun s =>
    let s' := mkSt (blaster s) (add_call CallOpen (world s)) in
    match fifo (world s) with
    | FifoPresent => Ret (pi_blaster_File, None) s'
    | FifoMissing => Ret (nil_File, Some (PathError "open" "/dev/pi-blaster" ENOENT)) s'
    | FifoDenied => Ret (nil_File, Some (PathError "open" "/dev/pi-blaster" EACCES)) s'
    end.

(** [exec.Command("pi-blaster").Run()]. *)
Definition exec_Run_pi_blaster : M (option error) :=
  fun s =>
    let w := add_call CallExec (world s) in
    match daemon (world s) with
    | DaemonStarts => Ret None (mkSt (blaster s) (set_fifo FifoPresent w))
    | DaemonFails msg => Ret (Some (ExecError msg)) (mkSt (blaster s) w)
    end.

(** [f.Write(data)]: a nil file refuses with [ErrInvalid] before any system
    call; on the FIFO the write reaches the device unless its reader is gone. *)
Definition File_Write (f : File) (data : string) : M (Z * option error) :=
  fun s =>
    match f with
    | nil_File => Ret (0, Some ErrInvalid) s
    | pi_blaster_File =>
        if reader_gone (world s)
        then Ret (0, Some (PathError "write" "/dev/pi-blaster" EPIPE))
                 (mkSt (blaster s) (add_call (CallWrite data false) (world s)))
        else Ret (Z.of_nat (String.length data), None)
                 (mkSt (blaster s) (add_call (CallWrite data true) (world s)))
    end.

(* ===================================================================== *)
(** ** Declarations common to both revisions *)

Definition attemptPiBlasterStart : M (option error) := exec_Run_pi_blaster.

Definition mustOpenPiBlaster : M File :=
  fe <- os_OpenFile ;;
  let file := fst fe in
  err <- match snd fe with
         | Some (PathError _ _ ENOENT) => attemptPiBlasterStart
         | err => ret err
         end ;;
  match err with
  | Some e => log_Fatal (error_Error e)
  | None => ret file
  end.

(** [fmt.Sprintf("%d=%f\n", pin, val)]. *)
Definition chanCmd (pin : Z) (val : float64) : string :=
  fmt_d pin ++ "=" ++ fmt_f val ++ String (ascii_of_N 10) "".

Definition setPin (pin : Z) (val : float64) : M (option error) :=
  bl <- get_blaster ;;
  File_Write (pipe bl) (chanCmd pin val) ;;;
  ret None.

(** [float64(val) / 255.0]. *)
Definition channel_fraction (val : Z) : float64 :=
  PrimFloat.div (float64_of_Z val) 255%float.

Definition setChannelInteger (pin : Z) (val : Z) : M (option error) :=
  if 255 <? val then ret (Some (errors_New "can't go over 255. sorry mate."))
  else if val <? 0 then ret (Some (errors_New "can't go below 0. sorry mate."))
  else
    let fval := channel_fraction val in
    setPin pin fval.

(* ===================================================================== *)
(** ** strconv.ParseUint(s, 10, 8) and net/url's Values *)

Definition maxUint64 : Z := 2 ^ 64 - 1.

(** The digit loop of [strconv.ParseUint] at base 10 and bit size 8:
    [cutoff] is [maxUint64/10 + 1] and [maxVal] is [1<<8 - 1]. *)
Fixpoint ParseUint_loop (s0 s : string) (n : Z) : Z * option error :=
  match s with
  | EmptyString => (n, None)
  | String ch rest =>
      let c := Z.of_N (N_of_ascii ch) in
      let lower := Z.lor c 32 in
      if (48 <=? c) && (c <=? 57) then
        let d := c - 48 in
        if maxUint64 / 10 + 1 <=? n then (255, Some (NumError "ParseUint" s0 true))
        else
          let n10 := (n * 10) mod 2 ^ 64 in
          let n1 := (n10 + d) mod 2 ^ 64 in
          if (n1 <? n10) || (255 <? n1) then (255, Some (NumError "ParseUint" s0 true))
          else ParseUint_loop s0 rest n1
      else if (97 <=? lower) && (lower <=? 122) then
        (* a letter: its digit value [lower - 'a' + 10] is not below the base *)
        (0, Some (NumError "ParseUint" s0 false))
      else (0, Some (NumError "ParseUint" s0 false))
  end.

Definition ParseUint_10_8 (s : string) : Z * option error :=
  match s with
  | EmptyString => (0, Some (NumError "ParseUint" s false))
  | _ => ParseUint_loop s s 0
  end.

Definition parseUint8OrZero (s : string) : Z :=
  let '(i, err) := ParseUint_10_8 s in
  match err with
  | Some _ => 0
  | None => wrap8 i
  end.

(** [url.Values], a [map[string][]string], and its [Get]: the first value of
    the key, or the empty string. *)
Abbreviation Values := (gmap string (list string)).

Definition Get (values : Values) (key : string) : string :=
  match values !! key with
  | Some (v :: _) => v
  | _ => ""
  end.

(** [%02x] of a byte, and [RGB.String] of the second revision. *)
Definition hex_char (d : Z) : ascii :=
  if d <? 10 then ascii_of_N (48 + Z.to_N d) else ascii_of_N (87 + Z.to_N d).

Definition fmt_02x (v : Z) : string :=
  String (hex_char (v / 16)) (String (hex_char (v mod 16)) "").

(** The request as the handlers see it: [url.ParseQuery(r.URL.RawQuery)]
    gave the values, or an error. *)
Definition Query : Type := Values + error.

(* ===================================================================== *)
(** ** First revision: the gradual fade *)

Module Fade.

Section WithFlags.
Variable flags : Flags.

Definition setRed (val : Z) : M (option error) :=
  setChannelInteger (flag_R flags) val.

Definition setGreen (val : Z) : M (option error) :=
  setChannelInteger (flag_G flags) val.

Definition setBlue (val : Z) : M (option error) :=
  setChannelInteger (flag_B flags) val.

Definition setterFunc : Type := Z -> M (option error).

(** [for i := cur; i > target; i-- { f(i) }], [i] a uint8. The fuel bounds
    the iterations; [decrementer_fuel] shows that 256 are enough. *)
Fixpoint decrementer_loop (fuel : nat) (i target : Z) (f : setterFunc) : M unit :=
  match fuel with
  | O => ret tt
  | S fuel' =>
      if target <? i
      then f i ;;; decrementer_loop fuel' (wrap8 (i - 1)) target f
      else ret tt
  end.

Definition decrementer (cur target : Z) (f : setterFunc) : M unit :=
  decrementer_loop 256 cur target f.

(** [for i := cur; i < target; i++ { f(i) }]. *)
Fixpoint incrementer_loop (fuel : nat) (i target : Z) (f : setterFunc) : M unit :=
  match fuel with
  | O => ret tt
  | S fuel' =>
      if i <? target
      then f i ;;; incrementer_loop fuel' (wrap8 (i + 1)) target f
      else ret tt
  end.

Definition incrementer (cur target : Z) (f : setterFunc) : M unit :=
  incrementer_loop 256 cur target f.

Definition setter (cur target : Z) (f : setterFunc) : M unit :=
  if cur <? target then incrementer cur target f
  else decrementer cur target f.

Definition setAll (c : RGB) : M unit :=
  bl <- get_blaster ;;
  setter (r bl) (R c) setRed ;;;
  bl <- get_blaster ;;
  setter (g bl) (G c) setGreen ;;;
  bl <- get_blaster ;;
  setter (b bl) (B c) setBlue.

(** *** The handlers and the actor *)

(** What a function sent on [blaster.Color] does when it is called: it
    sends on [blaster.Input], or returns. *)
Inductive Callback :=
| CbInput (c : RGB) (k : Callback)     (* blaster.Input <- c *)
| CbReturn.

Inductive Handler :=
| HColor (f : RGB -> Callback) (k : Handler)   (* blaster.Color <- f *)
| HInput (c : RGB) (k : Handler)               (* blaster.Input <- c *)
| HPanic (e : error)                           (* panic(err), recovered by errorHandler *)
| HDone.

Definition lighter (c : RGB) : Callback :=
  CbInput (mkRGB (wrap8 (R c + 10)) (wrap8 (G c + 10)) (wrap8 (B c + 10))) CbReturn.

Definition darker (c : RGB) : Callback :=
  CbInput (mkRGB (wrap8 (R c - 10)) (wrap8 (G c - 10)) (wrap8 (B c - 10))) CbReturn.

Definition actionHandler (q : Query) : Handler :=
  match q with
  | inr err => HPanic err
  | inl values =>
      let action := Get values "action" in
      if String.eqb action "lighter" then HColor lighter HDone
      else if String.eqb action "darker" then HColor darker HDone
      else if String.eqb action "off" then HInput (mkRGB 0 0 0) HDone
      else if String.eqb action "set" then
        let r := parseUint8OrZero (Get values "r") in
        let g := parseUint8OrZero (Get values "g") in
        let b := parseUint8OrZero (Get values "b") in
        HInput (mkRGB r g b) HDone
      else HDone
  end.

(** The goroutine of [Blaster.Run]: at its [select], inside a function it
    received on [b.Color] and blocked there at a send, or gone with the
    process. *)
Inductive Proc :=
| Ready (s : St)
| Calling (s : St) (cb : Callback)
| Exited (code : Z) (w : World).

Inductive Event :=
| EvInput (c : RGB)                 (* case c := <-b.Input *)
| EvColor (f : RGB -> Callback).    (* case c := <-b.Color *)

(** [c(RGB{b.r, b.g, b.b})] runs in the actor's own goroutine. A send on
    [blaster.Input] inside it waits for a receiver, and the only receive
    from that channel is the [select] of [Run]. *)
Definition call (s : St) (cb : Callback) : Proc :=
  match cb with
  | CbReturn => Ready s
  | CbInput _ _ => Calling s cb
  end.

Definition step (p : Proc) (e : Event) : option Proc :=
  match p with
  | Ready s =>
      match e with
      | EvInput c =>
          match setAll c s with
          | Ret _ s' => Some (Ready s')
          | Exit code s' => Some (Exited code (world s'))
          end
      | EvColor f =>
          let bl := blaster s in
          Some (call s (f (mkRGB (r bl) (g bl) (b bl))))
      end
  | Calling _ _ => None
  | Exited _ _ => None
  end.

(** [b.pipe = mustOpenPiBlaster()], then the loop. *)
Definition Run (w : World) : Proc :=
  match mustOpenPiBlaster (mkSt NewBlaster w) with
  | Ret file s =>
      let bl := blaster s in
      Ready (mkSt (mkBlaster file (r bl) (g bl) (b bl)) (world s))
  | Exit code s => Exited code (world s)
  end.

End WithFlags.

End Fade.


(* ===================================================================== *)
(** ** Second revision: the fixed correction and the guarded reply *)

Module Gamma.

(** [func (c RGB) String() string]: [fmt.Sprintf("#%02x%02x%02x", ...)]. *)
Definition RGB_String (c : RGB) : string :=
  "#" ++ fmt_02x (R c) ++ fmt_02x (G c) ++ fmt_02x (B c).

(** [float64(0x77) / 0xFF] and [float64(0x33) / 0xFF]: constant expressions,
    exact quotients rounded once to float64, which is what the binary64
    division of the two integers gives. *)
Definition gcorrection : float64 := PrimFloat.div (float64_of_Z 119) (float64_of_Z 255).

Definition bcorrection : float64 := PrimFloat.div (float64_of_Z 51) (float64_of_Z 255).

Definition correctColor (c : RGB) : RGB :=
  let G' := uint8_of_f64 (PrimFloat.mul (float64_of_Z (G c)) gcorrection) in
  let B' := uint8_of_f64 (PrimFloat.mul (float64_of_Z (B c)) bcorrection) in
  mkRGB (R c) G' B'.

Definition set_r (val : Z) : M unit :=
  bl <- get_blaster ;; put_blaster (mkBlaster (pipe bl) val (g bl) (b bl)).

Definition set_g (val : Z) : M unit :=
  bl <- get_blaster ;; put_blaster (mkBlaster (pipe bl) (r bl) val (b bl)).

Definition set_b (val : Z) : M unit :=
  bl <- get_blaster ;; put_blaster (mkBlaster (pipe bl) (r bl) (g bl) val).

Section WithFlags.
Variable flags : Flags.

Definition setRed (val : Z) : M (option error) :=
  err <- setChannelInteger (flag_R flags) val ;;
  match err with None => set_r val | Some _ => ret tt end ;;;
  ret err.

Definition setGreen (val : Z) : M (option error) :=
  err <- setChannelInteger (flag_G flags) val ;;
  match err with None => set_g val | Some _ => ret tt end ;;;
  ret err.

Definition setBlue (val : Z) : M (option error) :=
  err <- setChannelInteger (flag_B flags) val ;;
  match err with None => set_b val | Some _ => ret tt end ;;;
  ret err.

Definition setAll (c : RGB) : M unit :=
  let c := correctColor c in
  setRed (R c) ;;;
  setGreen (G c) ;;;
  setBlue (B c) ;;;
  ret tt.

(** *** The handlers *)

Inductive Handler :=
| HQuery (k : RGB -> Handler)                  (* blaster.Color <- c; v := <-c *)
| HInput (c : RGB) (k : Handler)               (* blaster.Input <- c *)
| HLog (line : string) (k : Handler)           (* log.Println *)
| HHeader (key value : string) (k : Handler)   (* w.Header().Set *)
| HWrite (body : string) (k : Handler)         (* w.Write *)
| HPanic (e : error)                           (* panic(err), recovered by errorHandler *)
| HDone.

(** [withRequestedColor(f)] followed by [k]: a fresh channel goes to
    [blaster.Color], [f] gets what arrives on it, the channel is closed. *)
Definition withRequestedColor (f : RGB -> Handler -> Handler) (k : Handler) : Handler :=
  HQuery (fun c => f c k).

Definition lighter (c : RGB) (k : Handler) : Handler :=
  HInput (mkRGB (wrap8 (R c + 10)) (wrap8 (G c + 10)) (wrap8 (B c + 10))) k.

Definition darker (c : RGB) (k : Handler) : Handler :=
  HInput (mkRGB (wrap8 (R c - 10)) (wrap8 (G c - 10)) (wrap8 (B c - 10))) k.

Definition report (c : RGB) (k : Handler) : Handler :=
  HLog (fmt_d (R c) ++ " " ++ fmt_d (G c) ++ " " ++ fmt_d (B c))
       (HWrite (RGB_String c) k).

Definition actionHandler (q : Query) : Handler :=
  match q with
  | inr err => HPanic err
  | inl values =>
      let action := Get values "action" in
      let rest := withRequestedColor report HDone in
      if String.eqb action "lighter" then withRequestedColor lighter rest
      else if String.eqb action "darker" then withRequestedColor darker rest
      else if String.eqb action "off" then HInput (mkRGB 0 0 0) rest
      else if String.eqb action "set" then
        let r := parseUint8OrZero (Get values "r") in
        let g := parseUint8OrZero (Get values "g") in
        let b := parseUint8OrZero (Get values "b") in
        HInput (mkRGB r g b) rest
      else rest
  end.

Definition currentColorHandler : Handler :=
  HHeader "Content-Type" "text/plain"
    (withRequestedColor (fun c k => HWrite (RGB_String c) k) HDone).

(** The messages a handler sends to the actor when its queries are answered
    with [answers], in order. *)
Inductive Msg :=
| SetColor (target : RGB)
| QueryColor.

Fixpoint sent (h : Handler) (answers : list RGB) : list Msg :=
  match h with
  | HQuery k =>
      QueryColor :: match answers with
                    | a :: answers' => sent (k a) answers'
                    | [] => []
                    end
  | HInput c k => SetColor c :: sent k answers
  | HLog _ k | HHeader _ _ k | HWrite _ k => sent k answers
  | HPanic _ | HDone => []
  end.

(** *** The actor and the goroutines that deliver its replies *)

(** [5 * time.Second], in milliseconds. *)
Definition reply_timeout : Z := 5000.

(** A goroutine started by [go func(c chan RGB) {...}(c)]: started and not
    yet at its [select]; blocked in the [select] with the value it offers on
    [c] and the instant its timer fires; or returned. *)
Inductive Goroutine :=
| Spawned (c : nat)
| Offering (c : nat) (snapshot : RGB) (deadline : Z)
| Finished.

Record Sys := mkSys {
  st : St;
  now : Z;                       (* milliseconds since the process started *)
  goroutines : list Goroutine
}.

Inductive Proc :=
| Running (s : Sys)
| Exited (code : Z) (w : World).

(** Goroutines are named by their position in [goroutines]; reply channels
    by a number. *)
Inductive Event :=
| EvInput (c : RGB)      (* the actor: case c := <-b.Input *)
| EvColor (c : nat)      (* the actor: case c := <-b.Color, and the go statement *)
| EvOffer (i : nat)      (* goroutine i enters its select *)
| EvReceive (i : nat)    (* the caller receives what goroutine i offers *)
| EvTimeout (i : nat)    (* goroutine i: case <-time.After(5 * time.Second) *)
| EvTick (ms : Z).       (* time passes *)

(** Time does not pass the instant a timer fires while its goroutine still
    waits: at that instant the reply is received or the timer case runs. *)
Definition may_wait_until (t : Z) (gr : Goroutine) : bool :=
  match gr with
  | Offering _ _ deadline => t <=? deadline
  | _ => true
  end.

Definition step (p : Proc) (e : Event) : option Proc :=
  match p with
  | Exited _ _ => None
  | Running s =>
      match e with
      | EvInput c =>
          match setAll c (st s) with
          | Ret _ s' => Some (Running (mkSys s' (now s) (goroutines s)))
          | Exit code s' => Some (Exited code (world s'))
          end
      | EvColor c =>
          Some (Running (mkSys (st s) (now s) (goroutines s ++ [Spawned c])))
      | EvOffer i =>
          match goroutines s !! i with
          | Some (Spawned c) =>
              let bl := blaster (st s) in
              let offer := Offering c (mkRGB (r bl) (g bl) (b bl)) (now s + reply_timeout) in
              Some (Running (mkSys (st s) (now s) (<[i := offer]> (goroutines s))))
          | _ => None
          end
      | EvReceive i =>
          match goroutines s !! i with
          | Some (Offering _ _ _) =>
              Some (Running (mkSys (st s) (now s) (<[i := Finished]> (goroutines s))))
          | _ => None
          end
      | EvTimeout i =>
          match goroutines s !! i with
          | Some (Offering _ _ deadline) =>
              if deadline <=? now s
              then Some (Exited 1 (add_log "Requested color chan blocked too long."
                                           (world (st s))))
              else None
          | _ => None
          end
      | EvTick ms =>
          if (0 <? ms) && forallb (may_wait_until (now s + ms)) (goroutines s)
          then Some (Running (mkSys (st s) (now s + ms) (goroutines s)))
          else None
      end
  end.

Fixpoint run (p : Proc) (es : list Event) : option Proc :=
  match es with
  | [] => Some p
  | e :: es' =>
      match step p e with
      | Some p' => run p' es'
      | None => None
      end
  end.

(** [b.pipe = mustOpenPiBlaster()], then the loop. *)
Definition Run (w : World) : Proc :=
  match mustOpenPiBlaster (mkSt NewBlaster w) with
  | Ret file s =>
      let bl := blaster s in
      Running (mkSys (mkSt (mkBlaster file (r bl) (g bl) (b bl)) (world s)) 0 [])
  | Exit code s => Exited code (world s)
  end.

End WithFlags.

End Gamma.


(* ===================================================================== *)
(** ** Definitions used to state the properties *)

Definition newline : string := String (ascii_of_N 10) EmptyString.

(** [math.Round]: the nearest integer, halves away from zero. *)
Definition Round_f64 (f : float64) : option Z :=
  match Prim2SF f with
  | S754_zero _ => Some 0
  | S754_finite s m e =>
      let a := if 0 <=? e then Z.shiftl (Z.pos m) e
               else (Z.pos m + Z.shiftl 1 (- e - 1)) / Z.shiftl 1 (- e) in
      Some (if s then - a else a)
  | S754_infinity _ | S754_nan => None
  end.

(** The way back from a fraction to a channel value as the specification
    words it: round(fraction * 255). *)
Definition fraction_to_channel (f : float64) : option Z :=
  Round_f64 (PrimFloat.mul f 255%float).

(** A decimal text such as 0.784314 read in millionths (the point dropped),
    and the channel value it stands for: round(text * 255). *)
Fixpoint millionths (t : string) (acc : Z) : Z :=
  match t with
  | EmptyString => acc
  | String ch rest =>
      let c := Z.of_N (N_of_ascii ch) in
      if (48 <=? c) && (c <=? 57) then millionths rest (acc * 10 + (c - 48))
      else millionths rest acc
  end.

Definition text_to_channel (t : string) : Z :=
  (millionths t 0 * 255 + 500000) / 1000000.

(** The 256 values of a uint8. *)
Definition all_uint8 : list Z := List.map Z.of_nat (seq 0 256).

(** The checks that the proofs run over the 256 channel values. *)
Definition roundtrip_ok (v : Z) : bool :=
  match fraction_to_channel (channel_fraction v) with
  | Some z => z =? v
  | None => false
  end.

Definition text_roundtrip_ok (v : Z) : bool :=
  text_to_channel (fmt_f (channel_fraction v)) =? v.

Definition fraction_in_unit (v : Z) : bool :=
  PrimFloat.leb 0%float (channel_fraction v) && PrimFloat.leb (channel_fraction v) 1%float.

Definition green_floor_ok (v : Z) : bool :=
  uint8_of_f64 (PrimFloat.mul (float64_of_Z v) Gamma.gcorrection) =? v * 119 / 255.

Definition blue_floor_ok (v : Z) : bool :=
  uint8_of_f64 (PrimFloat.mul (float64_of_Z v) Gamma.bcorrection) =? v * 51 / 255.

(** The state after [b.pipe.Write(data)]: unchanged when the pipe is nil, one
    more write call otherwise, which fails when the reader is gone. *)
Definition wrote (data : string) (s : St) : St :=
  match pipe (blaster s) with
  | nil_File => s
  | pi_blaster_File =>
      mkSt (blaster s)
           (add_call (CallWrite data (negb (reader_gone (world s)))) (world s))
  end.

(** The state after writing one channel value to [pin]. *)
Definition wrote_channel (pin val : Z) (s : St) : St :=
  wrote (chanCmd pin (channel_fraction val)) s.

(** The state [Gamma.setAll] leaves for an already corrected colour. *)
Definition Gamma_set (flags : Flags) (c : RGB) (s : St) : St :=
  let s1 := wrote_channel (flag_R flags) (R c) s in
  let s2 := wrote_channel (flag_G flags) (G c) s1 in
  let s3 := wrote_channel (flag_B flags) (B c) s2 in
  mkSt (mkBlaster (pipe (blaster s)) (R c) (G c) (B c)) (world s3).

(** [f] applied to each value of a list in turn, results dropped. *)
Fixpoint for_each (f : Z -> M (option error)) (vs : list Z) : M unit :=
  match vs with
  | [] => ret tt
  | v :: vs' => f v ;;; for_each f vs'
  end.

(** [n] values counting up, or down, from [from]. *)
Definition upward (from : Z) (n : nat) : list Z :=
  List.map (fun k => from + Z.of_nat k) (seq 0 n).

Definition downward (from : Z) (n : nat) : list Z :=
  List.map (fun k => from - Z.of_nat k) (seq 0 n).

(** The values the first revision's [setter] hands to its setter function on
    the way from [cur] to [target]. *)
Definition fade_values (cur target : Z) : list Z :=
  if cur <? target then upward cur (Z.to_nat (target - cur))
  else downward cur (Z.to_nat (cur - target)).

(** The state after writing each of a list of channel values to [pin]. *)
Definition wrote_all (pin : Z) (vs : list Z) (s : St) : St :=
  fold_left (fun s' v => wrote_channel pin v s') vs s.

(** The value of a string of decimal digits read after the prefix value [n];
    [None] when a character is not a digit. *)
Fixpoint decimal_from (s : string) (n : Z) : option Z :=
  match s with
  | EmptyString => Some n
  | String ch rest =>
      let c := Z.of_N (N_of_ascii ch) in
      if (48 <=? c) && (c <=? 57) then decimal_from rest (n * 10 + (c - 48))
      else None
  end.

(** The number a non-empty string of decimal digits denotes. *)
Definition decimal_value (s : string) : option Z :=
  match s with
  | EmptyString => None
  | _ => decimal_from s 0
  end.

(** What a query field stands for as a channel value: the number it
    denotes when it is a decimal numeral of at most 255, and 0 otherwise. *)
Definition uint8_field (s : string) : Z :=
  match decimal_value s with
  | Some n => if n <=? 255 then n else 0
  | None => 0
  end.

(** A world where the daemon runs and listens, and a blaster that holds the
    opened pipe. *)
Definition healthy_world : World := mkWorld FifoPresent DaemonStarts false [] [].

Definition opened (red green blue : Z) : St :=
  mkSt (mkBlaster pi_blaster_File red green blue) healthy_world.

(** The same with the reader of the FIFO gone: every write fails. *)
Definition reader_lost : St :=
  mkSt (mkBlaster pi_blaster_File 0 0 0)
       (mkWorld FifoPresent DaemonStarts true [] []).

(** A world where /dev/pi-blaster does not exist yet and the pi-blaster
    command would start the daemon. *)
Definition daemon_down : World := mkWorld FifoMissing DaemonStarts false [] [].

(** No goroutine is left waiting after the instant its timer fires. *)
Definition timers_respected (s : Gamma.Sys) : Prop :=
  Forall (fun gr => Gamma.may_wait_until (Gamma.now s) gr = true) (Gamma.goroutines s).

Definition proc_timers_respected (p : Gamma.Proc) : Prop :=
  match p with
  | Gamma.Running s => timers_respected s
  | Gamma.Exited _ _ => True
  end.

(** The second revision five seconds after a goroutine offered the colour
    {0,0,0} on reply channel 0 at time 0, nobody having received it. *)
Definition waiting_5s : Gamma.Sys :=
  Gamma.mkSys (mkSt (mkBlaster pi_blaster_File 0 0 0)
                    (mkWorld FifoPresent DaemonStarts false [CallOpen] []))
              5000 [Gamma.Offering 0 (mkRGB 0 0 0) 5000].

(** Parsed queries: action=set&r=200&g=x1&b=256, action=lighter and
    action=darker. *)
Definition set_query : Values :=
  <["action" := ["set"]]> (<["r" := ["200"]]> (<["g" := ["x1"]]>
    (<["b" := ["256"]]> ∅))).

Definition lighter_query : Values := <["action" := ["lighter"]]> ∅.

(** action=set&r=200&g=200&b=200 *)
Definition grey_query : Values :=
  <["action" := ["set"]]> (<["r" := ["200"]]> (<["g" := ["200"]]>
    (<["b" := ["200"]]> ∅))).

Definition darker_query : Values := <["action" := ["darker"]]> ∅.

(* ===================================================================== *)
(** ** Definitions used to state further properties *)

(** A string that holds decimal digits only. *)
Fixpoint all_digits (s : string) : bool :=
  match s with
  | EmptyString => true
  | String ch rest =>
      let c := Z.of_N (N_of_ascii ch) in
      (48 <=? c) && (c <=? 57) && all_digits rest
  end.

(** Reading the text of [RGB.String] back: a hash sign and three bytes of
    two lowercase hexadecimal digits. *)
Definition hex_value (ch : ascii) : option Z :=
  let c := Z.of_N (N_of_ascii ch) in
  if (48 <=? c) && (c <=? 57) then Some (c - 48)
  else if (97 <=? c) && (c <=? 102) then Some (c - 87)
  else None.

Definition hex_byte (hi lo : ascii) : option Z :=
  match hex_value hi, hex_value lo with
  | Some h, Some l => Some (16 * h + l)
  | _, _ => None
  end.

Definition RGB_of_String (s : string) : option RGB :=
  match s with
  | String hash (String r1 (String r2 (String g1 (String g2
      (String b1 (String b2 EmptyString)))))) =>
      if (Z.of_N (N_of_ascii hash) =? 35) then
        match hex_byte r1 r2, hex_byte g1 g2, hex_byte b1 b2 with
        | Some red, Some green, Some blue => Some (mkRGB red green blue)
        | _, _, _ => None
        end
      else None
  | _ => None
  end.

Definition hex_roundtrip_ok (v : Z) : bool :=
  match fmt_02x v with
  | String hi (String lo EmptyString) =>
      match hex_byte hi lo with
      | Some z => z =? v
      | None => false
      end
  | _ => false
  end.

Definition decimal_roundtrip_ok (v : Z) : bool := parseUint8OrZero (fmt_d v) =? v.

(** The colour a blaster holds. *)
Definition colour (s : St) : RGB :=
  mkRGB (r (blaster s)) (g (blaster s)) (b (blaster s)).

(** Every SetColor of a list of events carries 8-bit channels. *)
Definition inputs_wf (es : list Gamma.Event) : Prop :=
  Forall (fun e => match e with Gamma.EvInput c => wf_RGB c | _ => True end) es.

(** The colour the second revision holds after a list of events, from the
    colour it held before: the correction of the last SetColor, if any. *)
Definition colour_after (es : list Gamma.Event) (c0 : RGB) : RGB :=
  fold_left (fun c e => match e with
                        | Gamma.EvInput target => Gamma.correctColor target
                        | _ => c
                        end) es c0.

(** The events of the first revision's actor, run in order. *)
Fixpoint Fade_run (flags : Flags) (p : Fade.Proc) (es : list Fade.Event)
  : option Fade.Proc :=
  match es with
  | [] => Some p
  | e :: es' =>
      match Fade.step flags p e with
      | Some p' => Fade_run flags p' es'
      | None => None
      end
  end.

(** The state of a process of the first revision that is still alive. *)
Definition Fade_state (p : Fade.Proc) : option St :=
  match p with
  | Fade.Ready s | Fade.Calling s _ => Some s
  | Fade.Exited _ _ => None
  end.

(** What a handler has sent to its client. *)
Record Response := mkResponse {
  headers : list (string * string);
  body : list string
}.

Definition no_response : Response := mkResponse [] [].

(** How a handler ends when it runs alone against the actor. *)
Inductive Outcome :=
| Served (s : Gamma.Sys) (resp : Response)
| Panicked (e : error) (s : Gamma.Sys) (resp : Response)
| Blocked.

(** One [withRequestedColor] exchange with nobody else around: the actor
    takes the reply channel and starts goroutine [i], the goroutine reaches
    its select, and the handler receives what it offers. *)
Definition query_alone (flags : Flags) (s : Gamma.Sys) : option (RGB * Gamma.Sys) :=
  let i := length (Gamma.goroutines s) in
  match Gamma.run flags (Gamma.Running s) [Gamma.EvColor i; Gamma.EvOffer i] with
  | Some (Gamma.Running s1) =>
      match Gamma.goroutines s1 !! i with
      | Some (Gamma.Offering _ snapshot _) =>
          match Gamma.step flags (Gamma.Running s1) (Gamma.EvReceive i) with
          | Some (Gamma.Running s2) => Some (snapshot, s2)
          | _ => None
          end
      | _ => None
      end
  | _ => None
  end.

Definition print_log (line : string) (s : Gamma.Sys) : Gamma.Sys :=
  Gamma.mkSys (mkSt (blaster (Gamma.st s)) (add_log line (world (Gamma.st s))))
              (Gamma.now s) (Gamma.goroutines s).

(** A handler of the second revision run alone against the actor, each of
    its channel operations served at once. *)
Fixpoint serve_alone (flags : Flags) (h : Gamma.Handler) (s : Gamma.Sys)
    (resp : Response) : Outcome :=
  match h with
  | Gamma.HQuery k =>
      match query_alone flags s with
      | Some (c, s') => serve_alone flags (k c) s' resp
      | None => Blocked
      end
  | Gamma.HInput c k =>
      match Gamma.step flags (Gamma.Running s) (Gamma.EvInput c) with
      | Some (Gamma.Running s') => serve_alone flags k s' resp
      | _ => Blocked
      end
  | Gamma.HLog line k => serve_alone flags k (print_log line s) resp
  | Gamma.HHeader key value k =>
      serve_alone flags k s (mkResponse (headers resp ++ [(key, value)]) (body resp))
  | Gamma.HWrite text k =>
      serve_alone flags k s (mkResponse (headers resp) (body resp ++ [text]))
  | Gamma.HPanic e => Panicked e s resp
  | Gamma.HDone => Served s resp
  end.

(** The number of SetColor messages in a list. *)
Definition count_SetColor (ms : list Gamma.Msg) : nat :=
  length (List.filter (fun m => match m with Gamma.SetColor _ => true | _ => false end) ms).

(** A goroutine that is still to deliver or to give up. *)
Definition pending (gr : Gamma.Goroutine) : bool :=
  match gr with
  | Gamma.Finished => false
  | _ => true
  end.

Definition is_write (c : OsCall) : Prop :=
  match c with
  | CallWrite _ _ => True
  | _ => False
  end.

(** [s'] differs from [s] at most by the colour held and by further write
    calls: same pipe, same file system and daemon, same log. *)
Definition only_wrote (s s' : St) : Prop :=
  pipe (blaster s') = pipe (blaster s)
  /\ fifo (world s') = fifo (world s)
  /\ daemon (world s') = daemon (world s)
  /\ reader_gone (world s') = reader_gone (world s)
  /\ log (world s') = log (world s)
  /\ exists more, calls (world s') = (calls (world s) ++ more)%list
                  /\ Forall is_write more.

(** The write calls for a list of channel values on [pin], each succeeding
    or not as [ok] says. *)
Definition channel_writes (pin : Z) (ok : bool) (vs : list Z) : list OsCall :=
  List.map (fun v => CallWrite (chanCmd pin (channel_fraction v)) ok) vs.

(* ===================================================================== *)
(** * Properties *)

(** ** Formatting *)

Example fmt_d_17 : fmt_d 17 = "17".
Proof. reflexivity. Qed.

Example fmt_d_1000 : fmt_d 1000 = "1000".
Proof. reflexivity. Qed.

Example fmt_f_200 : fmt_f (channel_fraction 200) = "0.784314".
Proof. vm_compute. reflexivity. Qed.

Example chanCmd_full : chanCmd 17 (channel_fraction 255) = "17=1.000000" ++ newline.
Proof. vm_compute. reflexivity. Qed.

Example RGB_String_c85d28 : Gamma.RGB_String (mkRGB 200 93 40) = "#c85d28".
Proof. reflexivity. Qed.

(** ** Enumerating the values of a uint8 *)

Lemma uint8_in_all (v : Z) : uint8 v -> In v all_uint8.
Proof.
  intros [Hlo Hhi]. unfold all_uint8.
  apply in_map_iff. exists (Z.to_nat v). split; [lia|].
  apply in_seq. lia.
Qed.

Lemma uint8_forallb (p : Z -> bool) :
  forallb p all_uint8 = true -> forall v, uint8 v -> p v = true.
Proof.
  intros Hall v Hv.
  rewrite forallb_forall in Hall. apply Hall, uint8_in_all, Hv.
Qed.

Lemma wrap8_uint8 (v : Z) : uint8 v -> wrap8 v = v.
Proof. intros Hv. unfold wrap8, uint8 in *. apply Z.mod_small. lia. Qed.

(** ** The device writer *)

Lemma setPin_eq (pin : Z) (val : float64) (s : St) :
  setPin pin val s = Ret None (wrote (chanCmd pin val) s).
Proof.
  unfold setPin, wrote, bind, get_blaster, ret, File_Write.
  destruct (pipe (blaster s)); [reflexivity|].
  destruct (reader_gone (world s)); reflexivity.
Qed.

Lemma setChannelInteger_in_range (pin val : Z) (s : St) :
  uint8 val -> setChannelInteger pin val s = Ret None (wrote_channel pin val s).
Proof.
  intros [Hlo Hhi]. unfold setChannelInteger, wrote_channel.
  destruct (255 <? val) eqn:Hover; [apply Z.ltb_lt in Hover; lia|].
  destruct (val <? 0) eqn:Hunder; [apply Z.ltb_lt in Hunder; lia|].
  apply setPin_eq.
Qed.

Lemma wrote_blaster (data : string) (s : St) : blaster (wrote data s) = blaster s.
Proof. unfold wrote. destruct (pipe (blaster s)); reflexivity. Qed.

Lemma wrote_log (data : string) (s : St) : log (world (wrote data s)) = log (world s).
Proof. unfold wrote. destruct (pipe (blaster s)); reflexivity. Qed.

Lemma wrote_calls_open (data : string) (s : St) :
  pipe (blaster s) = pi_blaster_File ->
  calls (world (wrote data s))
  = (calls (world s) ++ [CallWrite data (negb (reader_gone (world s)))])%list.
Proof. unfold wrote. intros ->. reflexivity. Qed.

Lemma wrote_reader (data : string) (s : St) :
  reader_gone (world (wrote data s)) = reader_gone (world s).
Proof. unfold wrote. destruct (pipe (blaster s)); reflexivity. Qed.

(** ** The fraction written for a channel value *)

Lemma roundtrip_all : forallb roundtrip_ok all_uint8 = true.
Proof. vm_compute. reflexivity. Qed.

Lemma text_roundtrip_all : forallb text_roundtrip_ok all_uint8 = true.
Proof. vm_compute. reflexivity. Qed.

Lemma fraction_in_unit_all : forallb fraction_in_unit all_uint8 = true.
Proof. vm_compute. reflexivity. Qed.

(** C8: for every channel value v in 0..255, the fraction float64(v)/255.0
    that the channel-write path computes goes back to v under
    round(fraction * 255); so does the six-decimal text of it that reaches
    the device, hence no two of the 256 values are written alike and the
    conversion loses nothing. *)
Theorem channel_fraction_roundtrip (v : Z) :
  uint8 v ->
  fraction_to_channel (channel_fraction v) = Some v
  /\ text_to_channel (fmt_f (channel_fraction v)) = v
  /\ forall w, uint8 w ->
       fmt_f (channel_fraction v) = fmt_f (channel_fraction w) -> v = w.
Proof.
  intros Hv.
  assert (Htext : forall u, uint8 u -> text_to_channel (fmt_f (channel_fraction u)) = u).
  { intros u Hu. apply Z.eqb_eq.
    exact (uint8_forallb text_roundtrip_ok text_roundtrip_all u Hu). }
  split; [|split].
  - pose proof (uint8_forallb _ roundtrip_all v Hv) as Hok.
    unfold roundtrip_ok in Hok.
    destruct (fraction_to_channel (channel_fraction v)) as [z|]; [|discriminate].
    apply Z.eqb_eq in Hok. now subst.
  - apply Htext, Hv.
  - intros w Hw Heq.
    rewrite <- (Htext v Hv), <- (Htext w Hw), Heq. reflexivity.
Qed.

Lemma channel_fraction_roundtrip_witness :
  uint8 200 /\ fraction_to_channel (channel_fraction 200) = Some 200.
Proof.
  assert (H200 : uint8 200) by (unfold uint8; lia).
  split; [exact H200 | exact (proj1 (channel_fraction_roundtrip 200 H200))].
Defined.

(** C10: for every 8-bit value, [setChannelInteger] takes neither of its two
    error branches: it returns nil after calling Write on the pipe with the
    command of the fraction val/255.0, and that fraction lies in [0, 1]. *)
Theorem setChannelInteger_never_errs (pin val : Z) (s : St) :
  uint8 val ->
  setChannelInteger pin val s
    = (File_Write (pipe (blaster s)) (chanCmd pin (channel_fraction val)) ;;; ret None) s
  /\ setChannelInteger pin val s = Ret None (wrote_channel pin val s)
  /\ (pipe (blaster s) = pi_blaster_File ->
      calls (world (wrote_channel pin val s))
      = (calls (world s)
           ++ [CallWrite (chanCmd pin (channel_fraction val))
                         (negb (reader_gone (world s)))])%list)
  /\ PrimFloat.leb 0%float (channel_fraction val) = true
  /\ PrimFloat.leb (channel_fraction val) 1%float = true.
Proof.
  intros Hv.
  pose proof (setChannelInteger_in_range pin val s Hv) as Hset.
  pose proof (uint8_forallb _ fraction_in_unit_all val Hv) as Hunit.
  unfold fraction_in_unit in Hunit. apply andb_prop in Hunit as [H0 H1].
  repeat split; try assumption.
  - rewrite Hset. unfold wrote_channel. rewrite <- setPin_eq. reflexivity.
  - intros Hopen. apply wrote_calls_open, Hopen.
Qed.

Lemma setChannelInteger_never_errs_witness :
  uint8 200
  /\ setChannelInteger 17 200 (opened 0 0 0)
     = Ret None (mkSt (mkBlaster pi_blaster_File 0 0 0)
                      (mkWorld FifoPresent DaemonStarts false
                               [CallWrite ("17=0.784314" ++ newline) true] [])).
Proof.
  assert (H200 : uint8 200) by (unfold uint8; lia).
  split; [exact H200|].
  exact (proj1 (proj2 (setChannelInteger_never_errs 17 200 (opened 0 0 0) H200))).
Defined.

(** C6, as stated, fails: with the reader of the FIFO gone the write fails
    with EPIPE, and [setPin] still returns nil and prints nothing. *)
Lemma setPin_discards_write_failure :
  File_Write pi_blaster_File (chanCmd 17 (channel_fraction 255)) reader_lost
    = Ret (0, Some (PathError "write" "/dev/pi-blaster" EPIPE))
          (mkSt (mkBlaster pi_blaster_File 0 0 0)
                (mkWorld FifoPresent DaemonStarts true
                         [CallWrite ("17=1.000000" ++ newline) false] []))
  /\ setPin 17 (channel_fraction 255) reader_lost
     = Ret None
           (mkSt (mkBlaster pi_blaster_File 0 0 0)
                 (mkWorld FifoPresent DaemonStarts true
                          [CallWrite ("17=1.000000" ++ newline) false] [])).
Proof. split; vm_compute; reflexivity. Qed.

(** C6, amended: [setPin] calls Write on the pipe once with the command line
    of the pin and the fraction, drops what Write returns, and returns nil
    whatever the outcome; it prints nothing to the log and leaves the
    blaster as it was. *)
Theorem setPin_always_nil (pin : Z) (val : float64) (s : St) :
  setPin pin val s = (File_Write (pipe (blaster s)) (chanCmd pin val) ;;; ret None) s
  /\ exists s',
       setPin pin val s = Ret None s'
       /\ log (world s') = log (world s)
       /\ blaster s' = blaster s
       /\ (pipe (blaster s) = pi_blaster_File ->
           calls (world s')
           = (calls (world s)
                ++ [CallWrite (chanCmd pin val) (negb (reader_gone (world s)))])%list).
Proof.
  split; [reflexivity|].
  exists (wrote (chanCmd pin val) s).
  split; [apply setPin_eq|].
  split; [apply wrote_log|].
  split; [apply wrote_blaster|].
  apply wrote_calls_open.
Qed.

Lemma setPin_always_nil_witness :
  pipe (blaster reader_lost) = pi_blaster_File
  /\ exists s',
       setPin 17 (channel_fraction 255) reader_lost = Ret None s'
       /\ log (world s') = []
       /\ calls (world s') = [CallWrite ("17=1.000000" ++ newline) false].
Proof.
  assert (Hopen : pipe (blaster reader_lost) = pi_blaster_File) by reflexivity.
  split; [exact Hopen|].
  destruct (setPin_always_nil 17 (channel_fraction 255) reader_lost)
    as (_ & s' & Hret & Hlog & _ & Hcalls).
  exists s'. split; [exact Hret|]. split; [exact Hlog|].
  rewrite (Hcalls Hopen). vm_compute. reflexivity.
Defined.

(** ** The second revision's correction *)

Lemma green_floor_all : forallb green_floor_ok all_uint8 = true.
Proof. vm_compute. reflexivity. Qed.

Lemma blue_floor_all : forallb blue_floor_ok all_uint8 = true.
Proof. vm_compute. reflexivity. Qed.

Lemma correctColor_floor (c : RGB) :
  wf_RGB c ->
  Gamma.correctColor c = mkRGB (R c) (G c * 119 / 255) (B c * 51 / 255).
Proof.
  intros (_ & HG & HB). unfold Gamma.correctColor.
  pose proof (uint8_forallb _ green_floor_all (G c) HG) as Hg.
  pose proof (uint8_forallb _ blue_floor_all (B c) HB) as Hb.
  unfold green_floor_ok in Hg. unfold blue_floor_ok in Hb.
  apply Z.eqb_eq in Hg. apply Z.eqb_eq in Hb.
  rewrite Hg, Hb. reflexivity.
Qed.

Lemma correctColor_wf (c : RGB) : wf_RGB c -> wf_RGB (Gamma.correctColor c).
Proof.
  intros Hc. rewrite (correctColor_floor c Hc).
  destruct Hc as (HR & HG & HB). unfold wf_RGB, uint8 in *. simpl.
  repeat split; try lia.
  - apply Z.div_pos; lia.
  - apply Z.div_lt_upper_bound; lia.
  - apply Z.div_pos; lia.
  - apply Z.div_lt_upper_bound; lia.
Qed.

Lemma Gamma_setAll_eq (flags : Flags) (c : RGB) (s : St) :
  wf_RGB c ->
  Gamma.setAll flags c s = Ret tt (Gamma_set flags (Gamma.correctColor c) s).
Proof.
  intros Hc. pose proof (correctColor_wf c Hc) as (HR & HG & HB).
  unfold Gamma.setAll, Gamma_set.
  set (c' := Gamma.correctColor c) in *.
  destruct s as [[p r0 g0 b0] w].
  unfold Gamma.setRed, Gamma.setGreen, Gamma.setBlue, bind.
  rewrite (setChannelInteger_in_range _ _ _ HR).
  unfold Gamma.set_r, bind, get_blaster, put_blaster, ret, wrote_channel, wrote.
  destruct p; cbn [blaster world pipe r g b].
  - rewrite (setChannelInteger_in_range _ _ _ HG).
    unfold Gamma.set_g, bind, get_blaster, put_blaster, ret, wrote_channel, wrote.
    cbn [blaster world pipe r g b].
    rewrite (setChannelInteger_in_range _ _ _ HB).
    unfold Gamma.set_b, bind, get_blaster, put_blaster, ret, wrote_channel, wrote.
    cbn [blaster world pipe r g b]. reflexivity.
  - rewrite (setChannelInteger_in_range _ _ _ HG).
    unfold Gamma.set_g, bind, get_blaster, put_blaster, ret, wrote_channel, wrote.
    cbn [blaster world pipe r g b].
    rewrite (setChannelInteger_in_range _ _ _ HB).
    unfold Gamma.set_b, bind, get_blaster, put_blaster, ret, wrote_channel, wrote.
    cbn [blaster world pipe r g b]. reflexivity.
Qed.

Lemma Gamma_set_calls_open (flags : Flags) (c : RGB) (s : St) :
  pipe (blaster s) = pi_blaster_File ->
  calls (world (Gamma_set flags c s))
  = (calls (world s)
       ++ [CallWrite (chanCmd (flag_R flags) (channel_fraction (R c)))
                     (negb (reader_gone (world s)));
           CallWrite (chanCmd (flag_G flags) (channel_fraction (G c)))
                     (negb (reader_gone (world s)));
           CallWrite (chanCmd (flag_B flags) (channel_fraction (B c)))
                     (negb (reader_gone (world s)))])%list.
Proof.
  destruct s as [[p r0 g0 b0] w]. cbn [blaster pipe]. intros ->.
  unfold Gamma_set, wrote_channel, wrote, add_call.
  cbn [blaster world pipe calls reader_gone].
  rewrite <- !app_assoc. reflexivity.
Qed.

Lemma Gamma_set_log (flags : Flags) (c : RGB) (s : St) :
  log (world (Gamma_set flags c s)) = log (world s).
Proof.
  unfold Gamma_set, wrote_channel. cbn [world]. rewrite !wrote_log. reflexivity.
Qed.

(** C3: in the second revision, for every requested colour the correction
    keeps red, turns green into floor(G * 119 / 255) and blue into
    floor(B * 51 / 255); [setAll] writes the three corrected values and
    stores the corrected colour, not the requested one, in the blaster.
    Color{200,200,200} becomes {200, 93, 40}. *)
Theorem gamma_setAll_stores_corrected (flags : Flags) (c : RGB) (s : St) :
  wf_RGB c ->
  Gamma.correctColor c = mkRGB (R c) (G c * 119 / 255) (B c * 51 / 255)
  /\ (exists s',
        Gamma.setAll flags c s = Ret tt s'
        /\ blaster s'
           = mkBlaster (pipe (blaster s)) (R c) (G c * 119 / 255) (B c * 51 / 255)
        /\ log (world s') = log (world s)
        /\ (pipe (blaster s) = pi_blaster_File ->
            calls (world s')
            = (calls (world s)
                 ++ [CallWrite (chanCmd (flag_R flags) (channel_fraction (R c)))
                               (negb (reader_gone (world s)));
                     CallWrite (chanCmd (flag_G flags)
                                        (channel_fraction (G c * 119 / 255)))
                               (negb (reader_gone (world s)));
                     CallWrite (chanCmd (flag_B flags)
                                        (channel_fraction (B c * 51 / 255)))
                               (negb (reader_gone (world s)))])%list))
  /\ Gamma.correctColor (mkRGB 200 200 200) = mkRGB 200 93 40
  /\ Gamma.setAll default_flags (mkRGB 200 200 200) (opened 0 0 0)
     = Ret tt (mkSt (mkBlaster pi_blaster_File 200 93 40)
                    (mkWorld FifoPresent DaemonStarts false
                       [CallWrite ("17=0.784314" ++ newline) true;
                        CallWrite ("22=0.364706" ++ newline) true;
                        CallWrite ("27=0.156863" ++ newline) true] [])).
Proof.
  intros Hc. pose proof (correctColor_floor c Hc) as Hfloor.
  split; [exact Hfloor|]. split; [|split; vm_compute; reflexivity].
  exists (Gamma_set flags (Gamma.correctColor c) s).
  split; [apply Gamma_setAll_eq, Hc|].
  rewrite Hfloor.
  split; [reflexivity|].
  split; [apply Gamma_set_log|].
  intros Hopen.
  exact (Gamma_set_calls_open flags
           (mkRGB (R c) (G c * 119 / 255) (B c * 51 / 255)) s Hopen).
Qed.

Lemma gamma_setAll_stores_corrected_witness :
  wf_RGB (mkRGB 200 200 200)
  /\ pipe (blaster (opened 0 0 0)) = pi_blaster_File
  /\ exists s',
       Gamma.setAll default_flags (mkRGB 200 200 200) (opened 0 0 0) = Ret tt s'
       /\ blaster s' = mkBlaster pi_blaster_File 200 93 40
       /\ log (world s') = []
       /\ calls (world s')
          = [CallWrite ("17=0.784314" ++ newline) true;
             CallWrite ("22=0.364706" ++ newline) true;
             CallWrite ("27=0.156863" ++ newline) true].
Proof.
  assert (Hwf : wf_RGB (mkRGB 200 200 200)) by (unfold wf_RGB, uint8; simpl; lia).
  assert (Hopen : pipe (blaster (opened 0 0 0)) = pi_blaster_File) by reflexivity.
  split; [exact Hwf|]. split; [exact Hopen|].
  destruct (gamma_setAll_stores_corrected default_flags (mkRGB 200 200 200)
              (opened 0 0 0) Hwf) as (_ & (s' & Hrun & Hbl & Hlog & Hcalls) & _).
  exists s'. split; [exact Hrun|]. split; [exact Hbl|]. split; [exact Hlog|].
  rewrite (Hcalls Hopen). vm_compute. reflexivity.
Defined.

(** ** Query fields *)

Lemma decimal_from_ge (s : string) :
  forall n v, 0 <= n -> decimal_from s n = Some v -> n <= v.
Proof.
  induction s as [|ch rest IH]; intros n v Hn Hv; simpl in Hv.
  - injection Hv as <-. lia.
  - destruct ((48 <=? Z.of_N (N_of_ascii ch)) && (Z.of_N (N_of_ascii ch) <=? 57)) eqn:Hd;
      [|discriminate].
    apply andb_prop in Hd as [Hlo Hhi].
    apply Z.leb_le in Hlo. apply Z.leb_le in Hhi.
    apply IH in Hv; lia.
Qed.

Lemma ParseUint_loop_spec (s0 s : string) :
  forall n, 0 <= n <= 255 ->
  match decimal_from s n with
  | Some v =>
      if v <=? 255 then ParseUint_loop s0 s n = (v, None)
      else snd (ParseUint_loop s0 s n) <> None
  | None => snd (ParseUint_loop s0 s n) <> None
  end.
Proof.
  induction s as [|ch rest IH]; intros n Hn; simpl.
  - destruct (n <=? 255) eqn:Hle; [reflexivity|]. apply Z.leb_gt in Hle. lia.
  - destruct ((48 <=? Z.of_N (N_of_ascii ch)) && (Z.of_N (N_of_ascii ch) <=? 57)) eqn:Hd.
    + apply andb_prop in Hd as [Hlo Hhi].
      apply Z.leb_le in Hlo. apply Z.leb_le in Hhi.
      set (c := Z.of_N (N_of_ascii ch)) in *.
      assert (Hcut : (maxUint64 / 10 + 1 <=? n) = false).
      { apply Z.leb_gt. change (maxUint64 / 10 + 1) with 1844674407370955162. lia. }
      rewrite Hcut.
      assert (Hn10 : (n * 10) mod 2 ^ 64 = n * 10).
      { apply Z.mod_small. change (2 ^ 64) with 18446744073709551616. lia. }
      rewrite Hn10.
      assert (Hn1 : (n * 10 + (c - 48)) mod 2 ^ 64 = n * 10 + (c - 48)).
      { apply Z.mod_small. change (2 ^ 64) with 18446744073709551616. lia. }
      rewrite Hn1.
      assert (Hwrap : (n * 10 + (c - 48) <? n * 10) = false) by (apply Z.ltb_ge; lia).
      rewrite Hwrap. simpl orb.
      destruct (255 <? n * 10 + (c - 48)) eqn:Hbig.
      * apply Z.ltb_lt in Hbig.
        destruct (decimal_from rest (n * 10 + (c - 48))) as [v|] eqn:Hv;
          [|simpl; discriminate].
        apply decimal_from_ge in Hv; [|lia].
        destruct (v <=? 255) eqn:Hle; [apply Z.leb_le in Hle; lia|].
        simpl. discriminate.
      * apply Z.ltb_ge in Hbig. apply IH. lia.
    + destruct ((97 <=? Z.lor (Z.of_N (N_of_ascii ch)) 32)
                && (Z.lor (Z.of_N (N_of_ascii ch)) 32 <=? 122));
        simpl; discriminate.
Qed.

Lemma parseUint8OrZero_spec (s : string) : parseUint8OrZero s = uint8_field s.
Proof.
  unfold parseUint8OrZero, uint8_field, ParseUint_10_8, decimal_value.
  destruct s as [|ch rest]; [reflexivity|].
  pose proof (ParseUint_loop_spec (String ch rest) (String ch rest) 0 ltac:(lia)) as Hloop.
  destruct (decimal_from (String ch rest) 0) as [v|] eqn:Hv.
  - destruct (v <=? 255) eqn:Hle.
    + rewrite Hloop. apply wrap8_uint8.
      apply decimal_from_ge in Hv; [|lia]. apply Z.leb_le in Hle.
      unfold uint8. lia.
    + destruct (ParseUint_loop (String ch rest) (String ch rest) 0) as [i [e|]];
        [reflexivity | now contradiction Hloop].
  - destruct (ParseUint_loop (String ch rest) (String ch rest) 0) as [i [e|]];
      [reflexivity | now contradiction Hloop].
Qed.

Example parse_007 : parseUint8OrZero "007" = 7.
Proof. reflexivity. Qed.

Example parse_255 : parseUint8OrZero "255" = 255.
Proof. reflexivity. Qed.

Example parse_256 : parseUint8OrZero "256" = 0.
Proof. reflexivity. Qed.

Example parse_signed : parseUint8OrZero "+5" = 0.
Proof. reflexivity. Qed.

Example parse_empty : parseUint8OrZero "" = 0.
Proof. reflexivity. Qed.

Example parse_huge : parseUint8OrZero "99999999999999999999999" = 0.
Proof. reflexivity. Qed.

(** C9: for the set action each of the fields r, g, b is read as an unsigned
    8-bit decimal numeral by itself: the target's channel is the number when
    the field is a non-empty string of digits whose value is at most 255, and
    0 in every other case (missing, not a numeral, too large), whatever the
    other two fields hold. *)
Theorem set_action_fields (values : Values) (answers : list RGB) :
  Get values "action" = "set" ->
  Gamma.sent (Gamma.actionHandler (inl values)) answers
  = [Gamma.SetColor (mkRGB (uint8_field (Get values "r"))
                           (uint8_field (Get values "g"))
                           (uint8_field (Get values "b")));
     Gamma.QueryColor]
  /\ Fade.actionHandler (inl values)
     = Fade.HInput (mkRGB (uint8_field (Get values "r"))
                          (uint8_field (Get values "g"))
                          (uint8_field (Get values "b")))
                   Fade.HDone.
Proof.
  intros Haction.
  unfold Gamma.actionHandler, Fade.actionHandler. rewrite Haction.
  cbn [String.eqb Ascii.eqb Bool.eqb].
  rewrite !parseUint8OrZero_spec.
  split; [|reflexivity].
  cbn [Gamma.sent Gamma.withRequestedColor].
  destruct answers; reflexivity.
Qed.

Lemma set_action_fields_witness :
  Get set_query "action" = "set"
  /\ Gamma.sent (Gamma.actionHandler (inl set_query)) []
     = [Gamma.SetColor (mkRGB 200 0 0); Gamma.QueryColor].
Proof.
  assert (Haction : Get set_query "action" = "set") by (vm_compute; reflexivity).
  split; [exact Haction|].
  rewrite (proj1 (set_action_fields set_query [] Haction)).
  vm_compute. reflexivity.
Defined.

(** ** lighter and darker *)

(** C7: the lighter and darker actions query the current colour and send as
    SetColor target that colour with 10 added to, or subtracted from, each
    channel modulo 256: no saturation. From {250,250,250}, lighter sends
    {4,4,4}. *)
Theorem lighter_darker_wrap (values : Values) (c : RGB) (answers : list RGB) :
  (Get values "action" = "lighter" ->
   Gamma.sent (Gamma.actionHandler (inl values)) (c :: answers)
   = [Gamma.QueryColor;
      Gamma.SetColor (mkRGB ((R c + 10) mod 256) ((G c + 10) mod 256)
                            ((B c + 10) mod 256));
      Gamma.QueryColor])
  /\ (Get values "action" = "darker" ->
      Gamma.sent (Gamma.actionHandler (inl values)) (c :: answers)
      = [Gamma.QueryColor;
         Gamma.SetColor (mkRGB ((R c - 10) mod 256) ((G c - 10) mod 256)
                               ((B c - 10) mod 256));
         Gamma.QueryColor])
  /\ Gamma.lighter (mkRGB 250 250 250) Gamma.HDone
     = Gamma.HInput (mkRGB 4 4 4) Gamma.HDone.
Proof.
  split; [|split; [|reflexivity]].
  - intros Haction. unfold Gamma.actionHandler. rewrite Haction.
    cbn [String.eqb Ascii.eqb Bool.eqb].
    cbn [Gamma.sent Gamma.withRequestedColor Gamma.lighter].
    destruct answers; reflexivity.
  - intros Haction. unfold Gamma.actionHandler. rewrite Haction.
    cbn [String.eqb Ascii.eqb Bool.eqb].
    cbn [Gamma.sent Gamma.withRequestedColor Gamma.darker].
    destruct answers; reflexivity.
Qed.

Lemma lighter_darker_wrap_witness :
  (Get lighter_query "action" = "lighter"
   /\ Gamma.sent (Gamma.actionHandler (inl lighter_query)) [mkRGB 250 250 250]
      = [Gamma.QueryColor; Gamma.SetColor (mkRGB 4 4 4); Gamma.QueryColor])
  /\ (Get darker_query "action" = "darker"
      /\ Gamma.sent (Gamma.actionHandler (inl darker_query)) [mkRGB 5 5 5]
         = [Gamma.QueryColor; Gamma.SetColor (mkRGB 251 251 251); Gamma.QueryColor]).
Proof.
  assert (Hl : Get lighter_query "action" = "lighter") by (vm_compute; reflexivity).
  assert (Hd : Get darker_query "action" = "darker") by (vm_compute; reflexivity).
  split; (split; [assumption|]).
  - exact (proj1 (lighter_darker_wrap lighter_query (mkRGB 250 250 250) []) Hl).
  - exact (proj1 (proj2 (lighter_darker_wrap darker_query (mkRGB 5 5 5) [])) Hd).
Defined.

(** ** The first revision's fade *)

Lemma bind_ext {A C : Type} (m : M A) (k1 k2 : A -> M C) (s : St) :
  (forall a s', k1 a s' = k2 a s') -> bind m k1 s = bind m k2 s.
Proof. intros Hk. unfold bind. destruct (m s); [apply Hk | reflexivity]. Qed.

Lemma upward_S (from : Z) (n : nat) :
  upward from (S n) = from :: upward (from + 1) n.
Proof.
  unfold upward. rewrite <- cons_seq, <- seq_shift. simpl. rewrite Z.add_0_r.
  f_equal. rewrite List.map_map. apply List.map_ext. intros k. lia.
Qed.

Lemma downward_S (from : Z) (n : nat) :
  downward from (S n) = from :: downward (from - 1) n.
Proof.
  unfold downward. rewrite <- cons_seq, <- seq_shift. simpl. rewrite Z.sub_0_r.
  f_equal. rewrite List.map_map. apply List.map_ext. intros k. lia.
Qed.

(** Enough fuel gives the whole loop: any fuel of at least [target - i] runs
    [f] on i, i+1, ..., target-1 and stops at the loop test. *)
Lemma incrementer_fuel (f : Fade.setterFunc) (target : Z) :
  target <= 255 ->
  forall fuel i s, 0 <= i ->
    (Z.to_nat (target - i) <= fuel)%nat ->
    Fade.incrementer_loop fuel i target f s
    = for_each f (upward i (Z.to_nat (target - i))) s.
Proof.
  intros Ht. induction fuel as [|fuel IH]; intros i s Hi Hfuel.
  - replace (Z.to_nat (target - i)) with 0%nat by lia. reflexivity.
  - simpl. destruct (i <? target) eqn:Hlt.
    + apply Z.ltb_lt in Hlt.
      replace (Z.to_nat (target - i)) with (S (Z.to_nat (target - (i + 1)))) by lia.
      rewrite upward_S. simpl. apply bind_ext. intros _ s'.
      unfold wrap8. rewrite Z.mod_small by lia.
      apply IH; lia.
    + apply Z.ltb_ge in Hlt.
      replace (Z.to_nat (target - i)) with 0%nat by lia. reflexivity.
Qed.

Lemma decrementer_fuel (f : Fade.setterFunc) (target : Z) :
  0 <= target ->
  forall fuel i s, i <= 255 ->
    (Z.to_nat (i - target) <= fuel)%nat ->
    Fade.decrementer_loop fuel i target f s
    = for_each f (downward i (Z.to_nat (i - target))) s.
Proof.
  intros Ht. induction fuel as [|fuel IH]; intros i s Hi Hfuel.
  - replace (Z.to_nat (i - target)) with 0%nat by lia. reflexivity.
  - simpl. destruct (target <? i) eqn:Hlt.
    + apply Z.ltb_lt in Hlt.
      replace (Z.to_nat (i - target)) with (S (Z.to_nat (i - 1 - target))) by lia.
      rewrite downward_S. simpl. apply bind_ext. intros _ s'.
      unfold wrap8. rewrite Z.mod_small by lia.
      apply IH; lia.
    + apply Z.ltb_ge in Hlt.
      replace (Z.to_nat (i - target)) with 0%nat by lia. reflexivity.
Qed.

Lemma setter_for_each (f : Fade.setterFunc) (cur target : Z) (s : St) :
  uint8 cur -> uint8 target ->
  Fade.setter cur target f s = for_each f (fade_values cur target) s.
Proof.
  intros [Hc0 Hc1] [Ht0 Ht1]. unfold Fade.setter, fade_values.
  destruct (cur <? target).
  - apply incrementer_fuel; lia.
  - apply decrementer_fuel; lia.
Qed.

Lemma fade_values_uint8 (cur target : Z) :
  uint8 cur -> uint8 target -> Forall uint8 (fade_values cur target).
Proof.
  intros [Hc0 Hc1] [Ht0 Ht1]. unfold fade_values.
  destruct (cur <? target) eqn:Hlt.
  - apply Z.ltb_lt in Hlt. apply List.Forall_forall. intros v Hin.
    unfold upward in Hin. apply in_map_iff in Hin as (k & <- & Hk).
    apply in_seq in Hk. unfold uint8. lia.
  - apply Z.ltb_ge in Hlt. apply List.Forall_forall. intros v Hin.
    unfold downward in Hin. apply in_map_iff in Hin as (k & <- & Hk).
    apply in_seq in Hk. unfold uint8. lia.
Qed.

Lemma for_each_setChannelInteger (pin : Z) (vs : list Z) :
  Forall uint8 vs ->
  forall s, for_each (setChannelInteger pin) vs s = Ret tt (wrote_all pin vs s).
Proof.
  induction 1 as [|v vs Hv _ IH]; intros s; [reflexivity|].
  simpl. unfold bind. rewrite (setChannelInteger_in_range pin v s Hv). apply IH.
Qed.

Lemma wrote_all_blaster (pin : Z) (vs : list Z) :
  forall s, blaster (wrote_all pin vs s) = blaster s.
Proof.
  induction vs as [|v vs IH]; intros s; [reflexivity|].
  change (wrote_all pin (v :: vs) s) with (wrote_all pin vs (wrote_channel pin v s)).
  rewrite IH. apply wrote_blaster.
Qed.

(** What the first revision's [setAll] does, for every colour and state: it
    writes the values of the three fades, none of which is the target unless
    the channel starts there, and leaves [r], [g], [b] as they were. *)
Lemma Fade_setAll_eq (flags : Flags) (c : RGB) (s : St) :
  wf_RGB c ->
  uint8 (r (blaster s)) -> uint8 (g (blaster s)) -> uint8 (b (blaster s)) ->
  exists s',
    Fade.setAll flags c s = Ret tt s'
    /\ s' = wrote_all (flag_B flags) (fade_values (b (blaster s)) (B c))
              (wrote_all (flag_G flags) (fade_values (g (blaster s)) (G c))
                 (wrote_all (flag_R flags) (fade_values (r (blaster s)) (R c)) s))
    /\ blaster s' = blaster s.
Proof.
  intros (HR & HG & HB) Hr Hg Hb.
  eexists. split; [|split; [reflexivity|]].
  - unfold Fade.setAll, bind at 1, get_blaster.
    unfold bind at 1. unfold Fade.setRed.
    rewrite (setter_for_each _ _ _ s Hr HR).
    rewrite (for_each_setChannelInteger _ _ (fade_values_uint8 _ _ Hr HR)).
    unfold bind at 1. unfold bind at 1. unfold Fade.setGreen.
    rewrite wrote_all_blaster.
    rewrite (setter_for_each _ _ _ _ Hg HG).
    rewrite (for_each_setChannelInteger _ _ (fade_values_uint8 _ _ Hg HG)).
    unfold bind at 1. unfold Fade.setBlue.
    rewrite !wrote_all_blaster.
    rewrite (setter_for_each _ _ _ _ Hb HB).
    rewrite (for_each_setChannelInteger _ _ (fade_values_uint8 _ _ Hb HB)).
    reflexivity.
  - rewrite !wrote_all_blaster. reflexivity.
Qed.

Lemma fade_values_miss_target (cur target : Z) : ~ In target (fade_values cur target).
Proof.
  unfold fade_values. destruct (cur <? target) eqn:Hlt; intros Hin.
  - apply Z.ltb_lt in Hlt. unfold upward in Hin.
    apply in_map_iff in Hin as (k & Hk & Hseq). apply in_seq in Hseq. lia.
  - apply Z.ltb_ge in Hlt. unfold downward in Hin.
    apply in_map_iff in Hin as (k & Hk & Hseq). apply in_seq in Hseq. lia.
Qed.

(** C2, at the failing input: from the colour {0,0,0} the first revision's
    [setAll] of {3,0,0} writes red 0, 1 and 2 (one write for each of the three
    steps, the last one short of the target) and the blaster still holds red 0
    afterwards. *)
Theorem fade_setAll_misses_target :
  Fade.setAll default_flags (mkRGB 3 0 0) (opened 0 0 0)
  = Ret tt (mkSt (mkBlaster pi_blaster_File 0 0 0)
                 (mkWorld FifoPresent DaemonStarts false
                          [CallWrite ("17=0.000000" ++ newline) true;
                           CallWrite ("17=0.003922" ++ newline) true;
                           CallWrite ("17=0.007843" ++ newline) true] [])).
Proof. vm_compute. reflexivity. Qed.

(** ** Opening the device *)

(** Every case of [mustOpenPiBlaster]: the file is opened once and never
    again; the daemon is started only after ENOENT, and its outcome alone
    decides between [log.Fatal] and returning the file of the first open. *)
Lemma mustOpenPiBlaster_cases (bl : Blaster) (w : World) :
  mustOpenPiBlaster (mkSt bl w)
  = match fifo w with
    | FifoPresent => Ret pi_blaster_File (mkSt bl (add_call CallOpen w))
    | FifoDenied =>
        Exit 1 (mkSt bl (add_log (error_Error (PathError "open" "/dev/pi-blaster" EACCES))
                                 (add_call CallOpen w)))
    | FifoMissing =>
        match daemon w with
        | DaemonStarts =>
            Ret nil_File
                (mkSt bl (set_fifo FifoPresent (add_call CallExec (add_call CallOpen w))))
        | DaemonFails msg =>
            Exit 1 (mkSt bl (add_log msg (add_call CallExec (add_call CallOpen w))))
        end
    end.
Proof.
  unfold mustOpenPiBlaster, bind, os_OpenFile. cbn [blaster world].
  destruct (fifo w) eqn:Hfifo; cbn [fst snd]; try reflexivity.
  unfold attemptPiBlasterStart, exec_Run_pi_blaster. cbn [blaster world add_call daemon].
  destruct (daemon w); reflexivity.
Qed.

(** C4, at the failing input: /dev/pi-blaster is missing and the daemon
    starts. [mustOpenPiBlaster] opens once, starts the daemon once, and
    returns the nil file of the failed open without opening again, although
    the FIFO now exists; [Run] goes on with the nil pipe and serves: the next
    SetColor reaches no device (no write call is made) and is stored all the
    same. *)
Theorem mustOpenPiBlaster_no_second_open :
  mustOpenPiBlaster (mkSt NewBlaster daemon_down)
  = Ret nil_File
        (mkSt NewBlaster (mkWorld FifoPresent DaemonStarts false [CallOpen; CallExec] []))
  /\ Gamma.Run daemon_down
     = Gamma.Running
         (Gamma.mkSys
            (mkSt (mkBlaster nil_File 0 0 0)
                  (mkWorld FifoPresent DaemonStarts false [CallOpen; CallExec] []))
            0 [])
  /\ Gamma.run default_flags (Gamma.Run daemon_down)
       [Gamma.EvInput (mkRGB 255 255 255)]
     = Some (Gamma.Running
               (Gamma.mkSys
                  (mkSt (mkBlaster nil_File 255 119 51)
                        (mkWorld FifoPresent DaemonStarts false [CallOpen; CallExec] []))
                  0 [])).
Proof. repeat split; vm_compute; reflexivity. Qed.

(** ** The actor of the second revision *)

Lemma step_respects_timers (flags : Flags) (p p' : Gamma.Proc) (e : Gamma.Event) :
  Gamma.step flags p e = Some p' ->
  proc_timers_respected p -> proc_timers_respected p'.
Proof.
  destruct p as [s|code w]; [|discriminate].
  unfold proc_timers_respected, timers_respected. intros Hstep Hinv.
  destruct e as [c|c|i|i|i|ms]; cbn [Gamma.step] in Hstep.
  - destruct (Gamma.setAll flags c (Gamma.st s));
      injection Hstep as <-; [exact Hinv | exact I].
  - injection Hstep as <-. cbn [Gamma.goroutines Gamma.now].
    apply Forall_app. split; [exact Hinv|]. repeat constructor.
  - destruct (Gamma.goroutines s !! i) as [[c| |]|]; try discriminate.
    injection Hstep as <-. cbn [Gamma.goroutines Gamma.now].
    apply Forall_insert; [exact Hinv|].
    cbn [Gamma.may_wait_until]. apply Z.leb_le.
    unfold Gamma.reply_timeout. lia.
  - destruct (Gamma.goroutines s !! i) as [[|c snapshot deadline|]|]; try discriminate.
    injection Hstep as <-. cbn [Gamma.goroutines Gamma.now].
    apply Forall_insert; [exact Hinv | reflexivity].
  - destruct (Gamma.goroutines s !! i) as [[|c snapshot deadline|]|]; try discriminate.
    destruct (deadline <=? Gamma.now s); [|discriminate].
    injection Hstep as <-. exact I.
  - destruct ((0 <? ms)
              && forallb (Gamma.may_wait_until (Gamma.now s + ms)) (Gamma.goroutines s))
      eqn:Hok; [|discriminate].
    injection Hstep as <-. cbn [Gamma.goroutines Gamma.now].
    apply andb_prop in Hok as [_ Hall].
    apply List.Forall_forall. intros gr Hin.
    rewrite forallb_forall in Hall. apply Hall, Hin.
Qed.

Lemma run_respects_timers (flags : Flags) (es : list Gamma.Event) :
  forall p p', Gamma.run flags p es = Some p' ->
    proc_timers_respected p -> proc_timers_respected p'.
Proof.
  induction es as [|e es IH]; intros p p' Hrun Hinv; simpl in Hrun.
  - injection Hrun as <-. exact Hinv.
  - destruct (Gamma.step flags p e) as [p1|] eqn:Hstep; [|discriminate].
    apply (IH p1 p' Hrun). exact (step_respects_timers flags p p1 e Hstep Hinv).
Qed.

Lemma Run_respects_timers (w : World) :
  proc_timers_respected (Gamma.Run w).
Proof.
  unfold Gamma.Run.
  destruct (mustOpenPiBlaster (mkSt NewBlaster w)); simpl; [constructor | exact I].
Qed.

Lemma step_keeps_state (flags : Flags) (s s' : Gamma.Sys) (e : Gamma.Event) :
  Gamma.step flags (Gamma.Running s) e = Some (Gamma.Running s') ->
  (forall c, e <> Gamma.EvInput c) ->
  Gamma.st s' = Gamma.st s.
Proof.
  intros Hstep Hquery.
  destruct e as [c|c|i|i|i|ms]; cbn [Gamma.step] in Hstep.
  - now contradiction (Hquery c).
  - injection Hstep as <-. reflexivity.
  - destruct (Gamma.goroutines s !! i) as [[c| |]|]; try discriminate.
    injection Hstep as <-. reflexivity.
  - destruct (Gamma.goroutines s !! i) as [[|c snapshot deadline|]|]; try discriminate.
    injection Hstep as <-. reflexivity.
  - destruct (Gamma.goroutines s !! i) as [[|c snapshot deadline|]|]; try discriminate.
    destruct (deadline <=? Gamma.now s); discriminate.
  - destruct ((0 <? ms)
              && forallb (Gamma.may_wait_until (Gamma.now s + ms)) (Gamma.goroutines s));
      [|discriminate].
    injection Hstep as <-. reflexivity.
Qed.

Lemma setChannelInteger_returns (pin val : Z) (s : St) :
  exists err s', setChannelInteger pin val s = Ret err s'.
Proof.
  unfold setChannelInteger.
  destruct (255 <? val); [eexists; eexists; reflexivity|].
  destruct (val <? 0); [eexists; eexists; reflexivity|].
  rewrite setPin_eq. eexists; eexists; reflexivity.
Qed.

Lemma Gamma_setAll_returns (flags : Flags) (c : RGB) (s : St) :
  exists s', Gamma.setAll flags c s = Ret tt s'.
Proof.
  unfold Gamma.setAll, Gamma.setRed, Gamma.setGreen, Gamma.setBlue.
  unfold bind at 1. unfold bind at 1.
  destruct (setChannelInteger_returns (flag_R flags) (R (Gamma.correctColor c)) s)
    as (e1 & s1 & ->).
  assert (H1 : exists s1', (match e1 with None => Gamma.set_r (R (Gamma.correctColor c))
                                       | Some _ => ret tt end) s1 = Ret tt s1')
    by (destruct e1; eexists; reflexivity).
  destruct H1 as (s1' & H1). unfold bind at 1. rewrite H1. unfold ret at 1.
  unfold bind at 1. unfold bind at 1.
  destruct (setChannelInteger_returns (flag_G flags) (G (Gamma.correctColor c)) s1')
    as (e2 & s2 & ->).
  assert (H2 : exists s2', (match e2 with None => Gamma.set_g (G (Gamma.correctColor c))
                                       | Some _ => ret tt end) s2 = Ret tt s2')
    by (destruct e2; eexists; reflexivity).
  destruct H2 as (s2' & H2). unfold bind at 1. rewrite H2. unfold ret at 1.
  unfold bind at 1. unfold bind at 1.
  destruct (setChannelInteger_returns (flag_B flags) (B (Gamma.correctColor c)) s2')
    as (e3 & s3 & ->).
  assert (H3 : exists s3', (match e3 with None => Gamma.set_b (B (Gamma.correctColor c))
                                       | Some _ => ret tt end) s3 = Ret tt s3')
    by (destruct e3; eexists; reflexivity).
  destruct H3 as (s3' & H3). unfold bind at 1. rewrite H3. unfold ret.
  eexists; reflexivity.
Qed.

(** In every running state the actor takes a SetColor at once, whatever its
    goroutines are doing. *)
Lemma actor_takes_input (flags : Flags) (s : Gamma.Sys) (target : RGB) :
  exists st',
    Gamma.step flags (Gamma.Running s) (Gamma.EvInput target)
    = Some (Gamma.Running (Gamma.mkSys st' (Gamma.now s) (Gamma.goroutines s))).
Proof.
  destruct (Gamma_setAll_returns flags target (Gamma.st s)) as (st' & Hset).
  exists st'. cbn [Gamma.step]. rewrite Hset. reflexivity.
Qed.

(** C1, as stated, fails: the reply of query 0 is never received, its timer
    fires after 5000 ms, and the process is gone with exit status 1; neither
    a SetColor nor a QueryColor is processed after that. *)
Lemma unread_reply_ends_process :
  Gamma.run default_flags (Gamma.Run healthy_world)
    [Gamma.EvColor 0; Gamma.EvOffer 0; Gamma.EvTick 5000; Gamma.EvTimeout 0]
  = Some (Gamma.Exited 1
            (mkWorld FifoPresent DaemonStarts false [CallOpen]
                     ["Requested color chan blocked too long."]))
  /\ Gamma.run default_flags (Gamma.Run healthy_world)
       [Gamma.EvColor 0; Gamma.EvOffer 0; Gamma.EvTick 5000; Gamma.EvTimeout 0;
        Gamma.EvInput (mkRGB 1 2 3)]
     = None
  /\ Gamma.run default_flags (Gamma.Run healthy_world)
       [Gamma.EvColor 0; Gamma.EvOffer 0; Gamma.EvTick 5000; Gamma.EvTimeout 0;
        Gamma.EvColor 1]
     = None
  /\ Gamma.run default_flags (Gamma.Run healthy_world)
       [Gamma.EvColor 0; Gamma.EvOffer 0; Gamma.EvTick 5001]
     = None.
Proof. repeat split; vm_compute; reflexivity. Qed.

(** C1, amended: in any state the second revision can reach, a goroutine
    that still offers its reply has not outlived its 5 second timer, and time
    cannot pass that instant while the offer stands; once the instant is
    there the timer case abandons the delivery, prints the condition to the
    log and ends the process with exit status 1, after which no message is
    processed. Up to then the query machinery never touches the actor's
    state: every step other than a SetColor leaves the colour, the pipe and
    the world as they are, and a SetColor is still taken at once. *)
Theorem reply_timeout_ends_process
    (flags : Flags) (w : World) (es : list Gamma.Event) (s : Gamma.Sys)
    (i c : nat) (snapshot : RGB) (deadline : Z) :
  Gamma.run flags (Gamma.Run w) es = Some (Gamma.Running s) ->
  Gamma.goroutines s !! i = Some (Gamma.Offering c snapshot deadline) ->
  Gamma.now s <= deadline
  /\ (forall ms, deadline < Gamma.now s + ms ->
        Gamma.step flags (Gamma.Running s) (Gamma.EvTick ms) = None)
  /\ (deadline <= Gamma.now s ->
        Gamma.step flags (Gamma.Running s) (Gamma.EvTimeout i)
        = Some (Gamma.Exited 1 (add_log "Requested color chan blocked too long."
                                        (world (Gamma.st s)))))
  /\ (forall code w' e, Gamma.step flags (Gamma.Exited code w') e = None)
  /\ (forall e s', Gamma.step flags (Gamma.Running s) e = Some (Gamma.Running s') ->
        (forall target, e <> Gamma.EvInput target) -> Gamma.st s' = Gamma.st s)
  /\ (forall target, exists st',
        Gamma.step flags (Gamma.Running s) (Gamma.EvInput target)
        = Some (Gamma.Running (Gamma.mkSys st' (Gamma.now s) (Gamma.goroutines s)))).
Proof.
  intros Hrun Hoffer.
  pose proof (run_respects_timers flags es _ _ Hrun (Run_respects_timers w)) as Hinv.
  cbn [proc_timers_respected] in Hinv. unfold timers_respected in Hinv.
  pose proof (Forall_lookup_1 _ _ _ _ Hinv Hoffer) as Hwait.
  cbn [Gamma.may_wait_until] in Hwait. apply Z.leb_le in Hwait.
  split; [exact Hwait|].
  split.
  { intros ms Hms. cbn [Gamma.step].
    destruct (0 <? ms); [|reflexivity]. cbn [andb].
    destruct (forallb (Gamma.may_wait_until (Gamma.now s + ms)) (Gamma.goroutines s))
      eqn:Hall; [|reflexivity].
    rewrite forallb_forall in Hall.
    assert (Hin : In (Gamma.Offering c snapshot deadline) (Gamma.goroutines s)).
    { apply list_elem_of_In. eapply list_elem_of_lookup_2, Hoffer. }
    specialize (Hall _ Hin). cbn [Gamma.may_wait_until] in Hall.
    apply Z.leb_le in Hall. lia. }
  split.
  { intros Hdue. cbn [Gamma.step]. rewrite Hoffer.
    destruct (deadline <=? Gamma.now s) eqn:Hle; [reflexivity|].
    apply Z.leb_gt in Hle. lia. }
  split; [reflexivity|].
  split; [intros e s' Hstep Hq; exact (step_keeps_state flags s s' e Hstep Hq)|].
  intros target. apply actor_takes_input.
Qed.

Lemma reply_timeout_ends_process_witness :
  Gamma.run default_flags (Gamma.Run healthy_world)
    [Gamma.EvColor 0; Gamma.EvOffer 0; Gamma.EvTick 5000]
  = Some (Gamma.Running waiting_5s)
  /\ Gamma.goroutines waiting_5s !! 0%nat = Some (Gamma.Offering 0 (mkRGB 0 0 0) 5000)
  /\ Gamma.step default_flags (Gamma.Running waiting_5s) (Gamma.EvTimeout 0)
     = Some (Gamma.Exited 1 (add_log "Requested color chan blocked too long."
                                     (world (Gamma.st waiting_5s)))).
Proof.
  assert (Hrun : Gamma.run default_flags (Gamma.Run healthy_world)
                   [Gamma.EvColor 0; Gamma.EvOffer 0; Gamma.EvTick 5000]
                 = Some (Gamma.Running waiting_5s)) by (vm_compute; reflexivity).
  assert (Hoffer : Gamma.goroutines waiting_5s !! 0%nat
                   = Some (Gamma.Offering 0 (mkRGB 0 0 0) 5000)) by reflexivity.
  split; [exact Hrun|]. split; [exact Hoffer|].
  destruct (reply_timeout_ends_process default_flags healthy_world _ waiting_5s
              0%nat 0%nat (mkRGB 0 0 0) 5000 Hrun Hoffer) as (_ & _ & Hdue & _).
  apply Hdue. simpl. lia.
Defined.

(** The colour a reply carries is read by the goroutine when it reaches its
    [select], not by the actor when it takes the query: a SetColor processed
    in between shows in the reply. *)
Example snapshot_read_by_goroutine :
  Gamma.run default_flags (Gamma.Run healthy_world)
    [Gamma.EvColor 0; Gamma.EvInput (mkRGB 200 200 200); Gamma.EvOffer 0]
  = Some (Gamma.Running
            (Gamma.mkSys
               (mkSt (mkBlaster pi_blaster_File 200 93 40)
                     (mkWorld FifoPresent DaemonStarts false
                              [CallOpen;
                               CallWrite ("17=0.784314" ++ newline) true;
                               CallWrite ("22=0.364706" ++ newline) true;
                               CallWrite ("27=0.156863" ++ newline) true] []))
               0 [Gamma.Offering 0 (mkRGB 200 93 40) 5000])).
Proof. vm_compute. reflexivity. Qed.

(** C5, as stated, fails in the first revision: the actor calls the function
    it received on [Color] inside its own loop; the function of the lighter
    action sends on [Input], which only the loop receives from, so the actor
    stays inside the call and processes neither a SetColor nor a query any
    more. *)
Lemma fade_actor_runs_callback :
  Fade.step default_flags (Fade.Ready (opened 0 0 0)) (Fade.EvColor Fade.lighter)
  = Some (Fade.Calling (opened 0 0 0) (Fade.CbInput (mkRGB 10 10 10) Fade.CbReturn))
  /\ Fade.step default_flags
       (Fade.Calling (opened 0 0 0) (Fade.CbInput (mkRGB 10 10 10) Fade.CbReturn))
       (Fade.EvInput (mkRGB 10 10 10))
     = None
  /\ Fade.step default_flags
       (Fade.Calling (opened 0 0 0) (Fade.CbInput (mkRGB 10 10 10) Fade.CbReturn))
       (Fade.EvColor Fade.darker)
     = None.
Proof. repeat split; vm_compute; reflexivity. Qed.

(** C5, amended: in the second revision the actor, on a QueryColor, starts a
    goroutine for the reply channel and is back at its [select] at once with
    its state untouched; it delivers nothing itself and runs no code of the
    caller. Its next message, a SetColor or another query, is processed
    while that goroutine has not started, and also while it offers a reply
    that nobody receives. In the first revision the actor instead calls the
    function it received, with the current colour, inside its loop. *)
Theorem query_spawns_and_returns (flags : Flags) (s : Gamma.Sys) (c : nat) :
  Gamma.step flags (Gamma.Running s) (Gamma.EvColor c)
  = Some (Gamma.Running
            (Gamma.mkSys (Gamma.st s) (Gamma.now s)
                         (Gamma.goroutines s ++ [Gamma.Spawned c])))
  /\ (forall target, exists st',
        Gamma.step flags
          (Gamma.Running (Gamma.mkSys (Gamma.st s) (Gamma.now s)
                                      (Gamma.goroutines s ++ [Gamma.Spawned c])))
          (Gamma.EvInput target)
        = Some (Gamma.Running (Gamma.mkSys st' (Gamma.now s)
                                           (Gamma.goroutines s ++ [Gamma.Spawned c]))))
  /\ (forall c2,
        Gamma.step flags
          (Gamma.Running (Gamma.mkSys (Gamma.st s) (Gamma.now s)
                                      (Gamma.goroutines s ++ [Gamma.Spawned c])))
          (Gamma.EvColor c2)
        = Some (Gamma.Running
                  (Gamma.mkSys (Gamma.st s) (Gamma.now s)
                     ((Gamma.goroutines s ++ [Gamma.Spawned c]) ++ [Gamma.Spawned c2]))))
  /\ (forall snapshot deadline target, exists st',
        Gamma.step flags
          (Gamma.Running
             (Gamma.mkSys (Gamma.st s) (Gamma.now s)
                          (Gamma.goroutines s ++ [Gamma.Offering c snapshot deadline])))
          (Gamma.EvInput target)
        = Some (Gamma.Running
                  (Gamma.mkSys st' (Gamma.now s)
                     (Gamma.goroutines s ++ [Gamma.Offering c snapshot deadline]))))
  /\ (forall s0 f,
        Fade.step flags (Fade.Ready s0) (Fade.EvColor f)
        = Some (Fade.call s0 (f (mkRGB (r (blaster s0)) (g (blaster s0))
                                       (b (blaster s0)))))).
Proof.
  split; [reflexivity|].
  split; [intros target; apply (actor_takes_input flags (Gamma.mkSys _ _ _))|].
  split; [reflexivity|].
  split; [|reflexivity].
  intros snapshot deadline target.
  apply (actor_takes_input flags (Gamma.mkSys _ _ _)).
Qed.

(* ===================================================================== *)
(** * Further properties *)

(** ** parseUint8OrZero *)

Lemma uint8_field_uint8 (s : string) : uint8 (uint8_field s).
Proof.
  unfold uint8_field, decimal_value, uint8.
  destruct s as [|ch rest]; [lia|].
  destruct (decimal_from (String ch rest) 0) as [n|] eqn:Hn; [|lia].
  apply decimal_from_ge in Hn; [|lia].
  destruct (n <=? 255) eqn:Hle; [apply Z.leb_le in Hle|]; lia.
Qed.

Lemma parseUint8OrZero_range (s : string) : uint8 (parseUint8OrZero s).
Proof. rewrite parseUint8OrZero_spec. apply uint8_field_uint8. Qed.

(** X1: a decimal numeral is parsed to its value when that is at most 255,
    and to 0 when it is larger: a value that does not fit is rejected whole
    by the range check of the digit loop, never cut down to its low eight
    bits (300 gives 0, not 44). *)
Theorem parseUint8OrZero_numeral (s : string) (n : Z) :
  decimal_value s = Some n ->
  (n <= 255 -> parseUint8OrZero s = n)
  /\ (255 < n -> parseUint8OrZero s = 0 /\ snd (ParseUint_10_8 s) <> None).
Proof.
  intros Hn. split.
  - intros Hle. rewrite parseUint8OrZero_spec. unfold uint8_field. rewrite Hn.
    destruct (n <=? 255) eqn:Hb; [reflexivity|]. apply Z.leb_gt in Hb. lia.
  - intros Hgt. split.
    + rewrite parseUint8OrZero_spec. unfold uint8_field. rewrite Hn.
      destruct (n <=? 255) eqn:Hb; [apply Z.leb_le in Hb; lia | reflexivity].
    + unfold decimal_value in Hn. unfold ParseUint_10_8.
      destruct s as [|ch rest]; [discriminate|].
      pose proof (ParseUint_loop_spec (String ch rest) (String ch rest) 0 ltac:(lia))
        as Hloop.
      rewrite Hn in Hloop.
      destruct (n <=? 255) eqn:Hb; [apply Z.leb_le in Hb; lia | exact Hloop].
Qed.

Lemma parseUint8OrZero_numeral_witness :
  decimal_value "300" = Some 300
  /\ 255 < 300
  /\ parseUint8OrZero "300" = 0
  /\ wrap8 300 = 44
  /\ (decimal_value "044" = Some 44 /\ parseUint8OrZero "044" = 44).
Proof.
  assert (H300 : decimal_value "300" = Some 300) by reflexivity.
  assert (H44 : decimal_value "044" = Some 44) by reflexivity.
  assert (Hgt : 255 < 300) by lia.
  split; [exact H300|]. split; [exact Hgt|].
  split; [exact (proj1 (proj2 (parseUint8OrZero_numeral "300" 300 H300) Hgt))|].
  split; [reflexivity|].
  split; [exact H44|].
  apply (proj1 (parseUint8OrZero_numeral "044" 44 H44)). lia.
Defined.

Lemma decimal_roundtrip_all : forallb decimal_roundtrip_ok all_uint8 = true.
Proof. vm_compute. reflexivity. Qed.

(** X2: the decimal text of a channel value, as %d prints it, is parsed back
    to that value. *)
Theorem parseUint8OrZero_of_decimal (v : Z) :
  uint8 v -> parseUint8OrZero (fmt_d v) = v.
Proof.
  intros Hv. apply Z.eqb_eq.
  exact (uint8_forallb decimal_roundtrip_ok decimal_roundtrip_all v Hv).
Qed.

Lemma parseUint8OrZero_of_decimal_witness :
  uint8 255 /\ parseUint8OrZero (fmt_d 255) = 255.
Proof.
  assert (H255 : uint8 255) by (unfold uint8; lia).
  split; [exact H255 | exact (parseUint8OrZero_of_decimal 255 H255)].
Defined.

Lemma decimal_from_not_digits (s : string) :
  all_digits s = false -> forall n, decimal_from s n = None.
Proof.
  induction s as [|ch rest IH]; intros Hnd n; simpl in *; [discriminate|].
  destruct ((48 <=? Z.of_N (N_of_ascii ch)) && (Z.of_N (N_of_ascii ch) <=? 57));
    [|reflexivity].
  simpl in Hnd. apply IH, Hnd.
Qed.

(** X3: a string with any character that is not a decimal digit (a sign, a
    space, a letter, a point) is parsed as 0. *)
Theorem parseUint8OrZero_not_digits (s : string) :
  all_digits s = false -> parseUint8OrZero s = 0.
Proof.
  intros Hnd. rewrite parseUint8OrZero_spec. unfold uint8_field, decimal_value.
  destruct s as [|ch rest]; [reflexivity|].
  rewrite (decimal_from_not_digits _ Hnd). reflexivity.
Qed.

Lemma parseUint8OrZero_not_digits_witness :
  all_digits "-12" = false /\ parseUint8OrZero "-12" = 0.
Proof.
  assert (Hnd : all_digits "-12" = false) by reflexivity.
  split; [exact Hnd | exact (parseUint8OrZero_not_digits "-12" Hnd)].
Defined.

(** X4: a zero in front does not change what a string is parsed as. *)
Theorem parseUint8OrZero_leading_zero (s : string) :
  parseUint8OrZero (String "0"%char s) = parseUint8OrZero s.
Proof.
  rewrite !parseUint8OrZero_spec. unfold uint8_field, decimal_value.
  destruct s as [|ch rest]; reflexivity.
Qed.

(** ** RGB.String *)

Lemma hex_roundtrip_all : forallb hex_roundtrip_ok all_uint8 = true.
Proof. vm_compute. reflexivity. Qed.

Lemma hex_byte_fmt (v : Z) :
  uint8 v -> hex_byte (hex_char (v / 16)) (hex_char (v mod 16)) = Some v.
Proof.
  intros Hv.
  pose proof (uint8_forallb hex_roundtrip_ok hex_roundtrip_all v Hv) as Hok.
  unfold hex_roundtrip_ok, fmt_02x in Hok.
  destruct (hex_byte (hex_char (v / 16)) (hex_char (v mod 16))) as [z|];
    [|discriminate].
  apply Z.eqb_eq in Hok. now subst.
Qed.

(** X5: the text of a colour has seven characters and reads back, as a hash
    sign and three two-digit lowercase hexadecimal bytes, to that colour; so
    two different colours never print alike. *)
Theorem RGB_String_roundtrip (c : RGB) :
  wf_RGB c ->
  String.length (Gamma.RGB_String c) = 7%nat
  /\ RGB_of_String (Gamma.RGB_String c) = Some c
  /\ forall c', wf_RGB c' -> Gamma.RGB_String c = Gamma.RGB_String c' -> c = c'.
Proof.
  assert (Hback : forall d, wf_RGB d -> RGB_of_String (Gamma.RGB_String d) = Some d).
  { intros [red green blue] (HR & HG & HB). cbn [R G B] in *.
    unfold Gamma.RGB_String, fmt_02x. cbn [R G B]. cbv [String.append RGB_of_String].
    change (Z.of_N (N_of_ascii "#") =? 35) with true. cbv iota.
    rewrite (hex_byte_fmt red HR), (hex_byte_fmt green HG), (hex_byte_fmt blue HB).
    reflexivity. }
  intros Hc. split; [reflexivity|]. split; [apply Hback, Hc|].
  intros c' Hc' Heq.
  pose proof (Hback c Hc) as H1. rewrite Heq, (Hback c' Hc') in H1.
  now injection H1.
Qed.

Lemma RGB_String_roundtrip_witness :
  wf_RGB (mkRGB 200 93 40)
  /\ RGB_of_String (Gamma.RGB_String (mkRGB 200 93 40)) = Some (mkRGB 200 93 40).
Proof.
  assert (Hwf : wf_RGB (mkRGB 200 93 40)) by (unfold wf_RGB, uint8; simpl; lia).
  split; [exact Hwf|].
  exact (proj1 (proj2 (RGB_String_roundtrip (mkRGB 200 93 40) Hwf))).
Defined.

(** ** correctColor *)

(** X6: the correction never raises a channel: red stays, green drops to at
    most 119 and blue to at most 51, and the result is again a colour of
    8-bit channels. It leaves a colour as it is only when green and blue are
    0, so correcting a stored colour again darkens it further. *)
Theorem correctColor_bounds (c : RGB) :
  wf_RGB c ->
  R (Gamma.correctColor c) = R c
  /\ G (Gamma.correctColor c) <= G c /\ G (Gamma.correctColor c) <= 119
  /\ B (Gamma.correctColor c) <= B c /\ B (Gamma.correctColor c) <= 51
  /\ wf_RGB (Gamma.correctColor c)
  /\ (Gamma.correctColor c = c <-> G c = 0 /\ B c = 0).
Proof.
  intros Hc. pose proof (correctColor_wf c Hc) as Hwf.
  rewrite (correctColor_floor c Hc) in *.
  destruct c as [red green blue]. destruct Hc as (HR & HG & HB).
  unfold uint8 in *. cbn [R G B] in *.
  assert (Hg0 : 0 < green -> green * 119 / 255 < green)
    by (intros; apply Z.div_lt_upper_bound; lia).
  assert (Hb0 : 0 < blue -> blue * 51 / 255 < blue)
    by (intros; apply Z.div_lt_upper_bound; lia).
  split; [reflexivity|].
  split; [apply Z.div_le_upper_bound; lia|].
  split; [apply Z.div_le_upper_bound; lia|].
  split; [apply Z.div_le_upper_bound; lia|].
  split; [apply Z.div_le_upper_bound; lia|].
  split; [exact Hwf|].
  split.
  - intros Heq. injection Heq as Hg Hb. split.
    + destruct (Z.eq_dec green 0) as [|Hne]; [assumption|].
      specialize (Hg0 ltac:(lia)). lia.
    + destruct (Z.eq_dec blue 0) as [|Hne]; [assumption|].
      specialize (Hb0 ltac:(lia)). lia.
  - intros [-> ->]. reflexivity.
Qed.

Lemma correctColor_bounds_witness :
  wf_RGB (mkRGB 255 255 255)
  /\ G (Gamma.correctColor (mkRGB 255 255 255)) <= 119
  /\ B (Gamma.correctColor (mkRGB 255 255 255)) <= 51.
Proof.
  assert (Hwf : wf_RGB (mkRGB 255 255 255)) by (unfold wf_RGB, uint8; simpl; lia).
  split; [exact Hwf|].
  destruct (correctColor_bounds (mkRGB 255 255 255) Hwf)
    as (_ & _ & Hg & _ & Hb & _).
  split; [exact Hg | exact Hb].
Defined.

(** ** Opening the device, the cases that end well or fatally *)

(** X7: when /dev/pi-blaster exists, [mustOpenPiBlaster] returns the opened
    file after one open call, without running the pi-blaster command and
    without printing anything, and [Run] starts its loop with that pipe, the
    colour {0,0,0} and no goroutine. *)
Theorem mustOpenPiBlaster_present (bl : Blaster) (w : World) :
  fifo w = FifoPresent ->
  mustOpenPiBlaster (mkSt bl w) = Ret pi_blaster_File (mkSt bl (add_call CallOpen w))
  /\ Gamma.Run w
     = Gamma.Running
         (Gamma.mkSys (mkSt (mkBlaster pi_blaster_File 0 0 0) (add_call CallOpen w)) 0 [])
  /\ Fade.Run w
     = Fade.Ready (mkSt (mkBlaster pi_blaster_File 0 0 0) (add_call CallOpen w)).
Proof.
  intros Hfifo.
  assert (Hopen : forall bl', mustOpenPiBlaster (mkSt bl' w)
                    = Ret pi_blaster_File (mkSt bl' (add_call CallOpen w))).
  { intros bl'. rewrite mustOpenPiBlaster_cases, Hfifo. reflexivity. }
  split; [apply Hopen|].
  unfold Gamma.Run, Fade.Run. rewrite Hopen. split; reflexivity.
Qed.

Lemma mustOpenPiBlaster_present_witness :
  fifo healthy_world = FifoPresent
  /\ Gamma.Run healthy_world
     = Gamma.Running
         (Gamma.mkSys (mkSt (mkBlaster pi_blaster_File 0 0 0)
                            (mkWorld FifoPresent DaemonStarts false [CallOpen] []))
                      0 []).
Proof.
  assert (Hfifo : fifo healthy_world = FifoPresent) by reflexivity.
  split; [exact Hfifo|].
  exact (proj1 (proj2 (mustOpenPiBlaster_present NewBlaster healthy_world Hfifo))).
Defined.

(** X8: the fatal cases of [mustOpenPiBlaster]. When the open fails for
    another reason than a missing file, the process exits with status 1
    after printing the open error, and the pi-blaster command is not run.
    When the file is missing and the command fails, the process exits with
    status 1 after one open, one run of the command and printing the
    command's error. [Run] never reaches its loop in those cases. *)
Theorem mustOpenPiBlaster_fatal (bl : Blaster) (w : World) :
  (fifo w = FifoDenied ->
   mustOpenPiBlaster (mkSt bl w)
   = Exit 1 (mkSt bl (add_log "open /dev/pi-blaster: permission denied"
                              (add_call CallOpen w)))
   /\ Gamma.Run w
      = Gamma.Exited 1 (add_log "open /dev/pi-blaster: permission denied"
                                (add_call CallOpen w)))
  /\ (forall msg, fifo w = FifoMissing -> daemon w = DaemonFails msg ->
      mustOpenPiBlaster (mkSt bl w)
      = Exit 1 (mkSt bl (add_log msg (add_call CallExec (add_call CallOpen w))))
      /\ Gamma.Run w
         = Gamma.Exited 1 (add_log msg (add_call CallExec (add_call CallOpen w)))).
Proof.
  split.
  - intros Hfifo.
    assert (Hopen : forall bl', mustOpenPiBlaster (mkSt bl' w)
              = Exit 1 (mkSt bl' (add_log "open /dev/pi-blaster: permission denied"
                                          (add_call CallOpen w)))).
    { intros bl'. rewrite mustOpenPiBlaster_cases, Hfifo. reflexivity. }
    split; [apply Hopen|]. unfold Gamma.Run. rewrite Hopen. reflexivity.
  - intros msg Hfifo Hdaemon.
    assert (Hopen : forall bl', mustOpenPiBlaster (mkSt bl' w)
              = Exit 1 (mkSt bl' (add_log msg (add_call CallExec (add_call CallOpen w))))).
    { intros bl'. rewrite mustOpenPiBlaster_cases, Hfifo, Hdaemon. reflexivity. }
    split; [apply Hopen|]. unfold Gamma.Run. rewrite Hopen. reflexivity.
Qed.

Lemma mustOpenPiBlaster_fatal_witness :
  (fifo (mkWorld FifoDenied DaemonStarts false [] []) = FifoDenied
   /\ Gamma.Run (mkWorld FifoDenied DaemonStarts false [] [])
      = Gamma.Exited 1 (mkWorld FifoDenied DaemonStarts false [CallOpen]
                                ["open /dev/pi-blaster: permission denied"]))
  /\ (fifo (mkWorld FifoMissing (DaemonFails "exit status 1") false [] []) = FifoMissing
      /\ daemon (mkWorld FifoMissing (DaemonFails "exit status 1") false [] [])
         = DaemonFails "exit status 1"
      /\ Gamma.Run (mkWorld FifoMissing (DaemonFails "exit status 1") false [] [])
         = Gamma.Exited 1 (mkWorld FifoMissing (DaemonFails "exit status 1") false
                                   [CallOpen; CallExec] ["exit status 1"])).
Proof.
  split.
  - split; [reflexivity|].
    exact (proj2 (proj1 (mustOpenPiBlaster_fatal NewBlaster
                           (mkWorld FifoDenied DaemonStarts false [] []))
                        eq_refl)).
  - split; [reflexivity|]. split; [reflexivity|].
    exact (proj2 (proj2 (mustOpenPiBlaster_fatal NewBlaster
                           (mkWorld FifoMissing (DaemonFails "exit status 1") false [] []))
                        "exit status 1" eq_refl eq_refl)).
Defined.

(** ** What the second revision's actor keeps *)

Lemma only_wrote_refl (s : St) : only_wrote s s.
Proof.
  unfold only_wrote. repeat split; try reflexivity.
  exists []. split; [symmetry; apply app_nil_r | constructor].
Qed.

Lemma only_wrote_trans (s1 s2 s3 : St) :
  only_wrote s1 s2 -> only_wrote s2 s3 -> only_wrote s1 s3.
Proof.
  intros (Hp1 & Hf1 & Hd1 & Hr1 & Hl1 & m1 & Hc1 & Hw1)
         (Hp2 & Hf2 & Hd2 & Hr2 & Hl2 & m2 & Hc2 & Hw2).
  unfold only_wrote. repeat split; try congruence.
  exists (m1 ++ m2)%list. split.
  - rewrite Hc2, Hc1, app_assoc. reflexivity.
  - apply Forall_app. split; assumption.
Qed.

Lemma only_wrote_wrote (data : string) (s : St) : only_wrote s (wrote data s).
Proof.
  unfold wrote. destruct (pipe (blaster s)) eqn:Hpipe; [apply only_wrote_refl|].
  unfold only_wrote. cbn [blaster world add_call fifo daemon reader_gone log calls].
  repeat split; try reflexivity.
  eexists. split; [reflexivity|]. repeat constructor.
Qed.

Lemma only_wrote_colour (s : St) (red green blue : Z) :
  only_wrote s (mkSt (mkBlaster (pipe (blaster s)) red green blue) (world s)).
Proof.
  unfold only_wrote. cbn [blaster world pipe]. repeat split; try reflexivity.
  exists []. split; [symmetry; apply app_nil_r | constructor].
Qed.

Lemma setChannelInteger_frame (pin val : Z) (s : St) :
  exists err s',
    setChannelInteger pin val s = Ret err s'
    /\ only_wrote s s' /\ blaster s' = blaster s.
Proof.
  unfold setChannelInteger.
  destruct (255 <? val).
  { eexists; eexists. split; [reflexivity|]. split; [apply only_wrote_refl | reflexivity]. }
  destruct (val <? 0).
  { eexists; eexists. split; [reflexivity|]. split; [apply only_wrote_refl | reflexivity]. }
  rewrite setPin_eq. eexists; eexists. split; [reflexivity|].
  split; [apply only_wrote_wrote | apply wrote_blaster].
Qed.

Lemma Gamma_setRed_frame (flags : Flags) (val : Z) (s : St) :
  exists err s', Gamma.setRed flags val s = Ret err s' /\ only_wrote s s'.
Proof.
  unfold Gamma.setRed, bind.
  destruct (setChannelInteger_frame (flag_R flags) val s) as (err & s1 & -> & Hw & _).
  destruct err as [e|].
  - exists (Some e), s1. split; [reflexivity | exact Hw].
  - eexists; eexists. split; [reflexivity|].
    eapply only_wrote_trans; [exact Hw | apply only_wrote_colour].
Qed.

Lemma Gamma_setGreen_frame (flags : Flags) (val : Z) (s : St) :
  exists err s', Gamma.setGreen flags val s = Ret err s' /\ only_wrote s s'.
Proof.
  unfold Gamma.setGreen, bind.
  destruct (setChannelInteger_frame (flag_G flags) val s) as (err & s1 & -> & Hw & _).
  destruct err as [e|].
  - exists (Some e), s1. split; [reflexivity | exact Hw].
  - eexists; eexists. split; [reflexivity|].
    eapply only_wrote_trans; [exact Hw | apply only_wrote_colour].
Qed.

Lemma Gamma_setBlue_frame (flags : Flags) (val : Z) (s : St) :
  exists err s', Gamma.setBlue flags val s = Ret err s' /\ only_wrote s s'.
Proof.
  unfold Gamma.setBlue, bind.
  destruct (setChannelInteger_frame (flag_B flags) val s) as (err & s1 & -> & Hw & _).
  destruct err as [e|].
  - exists (Some e), s1. split; [reflexivity | exact Hw].
  - eexists; eexists. split; [reflexivity|].
    eapply only_wrote_trans; [exact Hw | apply only_wrote_colour].
Qed.

Lemma Gamma_setAll_frame (flags : Flags) (c : RGB) (s : St) :
  exists s', Gamma.setAll flags c s = Ret tt s' /\ only_wrote s s'.
Proof.
  unfold Gamma.setAll. unfold bind at 1.
  destruct (Gamma_setRed_frame flags (R (Gamma.correctColor c)) s) as (e1 & s1 & -> & H1).
  unfold bind at 1.
  destruct (Gamma_setGreen_frame flags (G (Gamma.correctColor c)) s1) as (e2 & s2 & -> & H2).
  unfold bind at 1.
  destruct (Gamma_setBlue_frame flags (B (Gamma.correctColor c)) s2) as (e3 & s3 & -> & H3).
  exists s3. split; [reflexivity|].
  eapply only_wrote_trans; [|exact H3].
  eapply only_wrote_trans; [exact H1 | exact H2].
Qed.

Lemma step_only_wrote (flags : Flags) (s s' : Gamma.Sys) (e : Gamma.Event) :
  Gamma.step flags (Gamma.Running s) e = Some (Gamma.Running s') ->
  only_wrote (Gamma.st s) (Gamma.st s').
Proof.
  intros Hstep. destruct e as [c|c|i|i|i|ms];
    try (rewrite (step_keeps_state flags s s' _ Hstep) by discriminate;
         apply only_wrote_refl).
  cbn [Gamma.step] in Hstep.
  destruct (Gamma_setAll_frame flags c (Gamma.st s)) as (s1 & Hset & Hw).
  rewrite Hset in Hstep. injection Hstep as <-. exact Hw.
Qed.

Lemma run_exited (flags : Flags) (code : Z) (w : World) (es : list Gamma.Event)
    (s : Gamma.Sys) :
  Gamma.run flags (Gamma.Exited code w) es <> Some (Gamma.Running s).
Proof. destruct es; simpl; discriminate. Qed.

(** X9: while the process of the second revision runs, whatever messages,
    deliveries and ticks happen, the actor keeps the pipe it opened, prints
    nothing to the log, and makes no system call other than writes on the
    pipe: the state differs only by the colour and by appended writes. *)
Theorem run_only_wrote (flags : Flags) (es : list Gamma.Event) :
  forall s s',
    Gamma.run flags (Gamma.Running s) es = Some (Gamma.Running s') ->
    only_wrote (Gamma.st s) (Gamma.st s').
Proof.
  induction es as [|e es IH]; intros s s' Hrun; cbn [Gamma.run] in Hrun.
  - injection Hrun as <-. apply only_wrote_refl.
  - destruct (Gamma.step flags (Gamma.Running s) e) as [[s1|code w]|] eqn:Hstep.
    + eapply only_wrote_trans; [exact (step_only_wrote flags s s1 e Hstep)|].
      apply IH, Hrun.
    + now apply run_exited in Hrun.
    + discriminate.
Qed.

Lemma run_only_wrote_witness :
  Gamma.run default_flags (Gamma.Running waiting_5s)
    [Gamma.EvInput (mkRGB 1 2 3); Gamma.EvReceive 0]
  = Some (Gamma.Running
            (Gamma.mkSys
               (mkSt (mkBlaster pi_blaster_File 1 0 0)
                     (mkWorld FifoPresent DaemonStarts false
                        [CallOpen;
                         CallWrite ("17=0.003922" ++ newline) true;
                         CallWrite ("22=0.000000" ++ newline) true;
                         CallWrite ("27=0.000000" ++ newline) true] []))
               5000 [Gamma.Finished]))
  /\ only_wrote (Gamma.st waiting_5s)
       (mkSt (mkBlaster pi_blaster_File 1 0 0)
             (mkWorld FifoPresent DaemonStarts false
                [CallOpen;
                 CallWrite ("17=0.003922" ++ newline) true;
                 CallWrite ("22=0.000000" ++ newline) true;
                 CallWrite ("27=0.000000" ++ newline) true] [])).
Proof.
  assert (Hrun : Gamma.run default_flags (Gamma.Running waiting_5s)
                   [Gamma.EvInput (mkRGB 1 2 3); Gamma.EvReceive 0]
                 = Some (Gamma.Running
                    (Gamma.mkSys
                       (mkSt (mkBlaster pi_blaster_File 1 0 0)
                             (mkWorld FifoPresent DaemonStarts false
                                [CallOpen;
                                 CallWrite ("17=0.003922" ++ newline) true;
                                 CallWrite ("22=0.000000" ++ newline) true;
                                 CallWrite ("27=0.000000" ++ newline) true] []))
                       5000 [Gamma.Finished])))
    by (vm_compute; reflexivity).
  split; [exact Hrun|].
  exact (run_only_wrote default_flags _ _ _ Hrun).
Defined.

(** X10: the process of the second revision is ended by nothing but the
    timer case of a reply goroutine: a step from a running state to an
    exited one is the timeout of a goroutine that still offers its reply at
    or after its deadline, the status is 1 and the one line printed is the
    timeout message. Processing a SetColor never ends the process, even when
    every write on the pipe fails. *)
Theorem only_timeout_exits (flags : Flags) (s : Gamma.Sys) (e : Gamma.Event)
    (code : Z) (w' : World) :
  Gamma.step flags (Gamma.Running s) e = Some (Gamma.Exited code w') ->
  exists i c snapshot deadline,
    e = Gamma.EvTimeout i
    /\ Gamma.goroutines s !! i = Some (Gamma.Offering c snapshot deadline)
    /\ deadline <= Gamma.now s
    /\ code = 1
    /\ w' = add_log "Requested color chan blocked too long." (world (Gamma.st s)).
Proof.
  intros Hstep. destruct e as [c|c|i|i|i|ms]; cbn [Gamma.step] in Hstep.
  - destruct (Gamma_setAll_returns flags c (Gamma.st s)) as (s1 & Hset).
    rewrite Hset in Hstep. discriminate.
  - discriminate.
  - destruct (Gamma.goroutines s !! i) as [[c| |]|]; discriminate.
  - destruct (Gamma.goroutines s !! i) as [[|c snapshot deadline|]|]; discriminate.
  - destruct (Gamma.goroutines s !! i) as [[|c snapshot deadline|]|] eqn:Hi;
      try discriminate.
    destruct (deadline <=? Gamma.now s) eqn:Hdue; [|discriminate].
    injection Hstep as <- <-. apply Z.leb_le in Hdue.
    exists i, c, snapshot, deadline. repeat split; try reflexivity; assumption.
  - destruct ((0 <? ms)
              && forallb (Gamma.may_wait_until (Gamma.now s + ms)) (Gamma.goroutines s));
      discriminate.
Qed.

Lemma only_timeout_exits_witness :
  Gamma.step default_flags (Gamma.Running waiting_5s) (Gamma.EvTimeout 0)
  = Some (Gamma.Exited 1 (mkWorld FifoPresent DaemonStarts false [CallOpen]
                                  ["Requested color chan blocked too long."]))
  /\ exists i c snapshot deadline,
       Gamma.EvTimeout 0 = Gamma.EvTimeout i
       /\ Gamma.goroutines waiting_5s !! i = Some (Gamma.Offering c snapshot deadline)
       /\ deadline <= Gamma.now waiting_5s.
Proof.
  assert (Hstep : Gamma.step default_flags (Gamma.Running waiting_5s) (Gamma.EvTimeout 0)
                  = Some (Gamma.Exited 1
                            (mkWorld FifoPresent DaemonStarts false [CallOpen]
                                     ["Requested color chan blocked too long."])))
    by (vm_compute; reflexivity).
  split; [exact Hstep|].
  destruct (only_timeout_exits default_flags waiting_5s _ _ _ Hstep)
    as (i & c & snapshot & deadline & He & Hi & Hdue & _).
  exists i, c, snapshot, deadline. repeat split; assumption.
Defined.

Lemma colour_Gamma_set (flags : Flags) (c : RGB) (s : St) :
  colour (Gamma_set flags c s) = c.
Proof. destruct c. reflexivity. Qed.

Lemma step_colour (flags : Flags) (s s' : Gamma.Sys) (e : Gamma.Event) :
  match e with Gamma.EvInput c => wf_RGB c | _ => True end ->
  Gamma.step flags (Gamma.Running s) e = Some (Gamma.Running s') ->
  colour (Gamma.st s')
  = match e with
    | Gamma.EvInput target => Gamma.correctColor target
    | _ => colour (Gamma.st s)
    end.
Proof.
  intros Hwf Hstep. destruct e as [c|c|i|i|i|ms];
    try (rewrite (step_keeps_state flags s s' _ Hstep) by discriminate; reflexivity).
  cbn [Gamma.step] in Hstep. rewrite (Gamma_setAll_eq flags c _ Hwf) in Hstep.
  injection Hstep as <-. apply colour_Gamma_set.
Qed.

(** X11: in the second revision the colour held after any sequence of
    messages, deliveries and ticks is the correction of the last SetColor
    processed, whole, or the colour held before if there was none: never a
    mix of channels of two targets. *)
Theorem run_colour_last_target (flags : Flags) (es : list Gamma.Event) :
  forall s s',
    inputs_wf es ->
    Gamma.run flags (Gamma.Running s) es = Some (Gamma.Running s') ->
    colour (Gamma.st s') = colour_after es (colour (Gamma.st s)).
Proof.
  induction es as [|e es IH]; intros s s' Hwf Hrun; cbn [Gamma.run] in Hrun.
  - injection Hrun as <-. reflexivity.
  - apply Forall_cons in Hwf as [He Hes].
    destruct (Gamma.step flags (Gamma.Running s) e) as [[s1|code w]|] eqn:Hstep.
    + rewrite (IH s1 s' Hes Hrun). unfold colour_after. cbn [fold_left].
      rewrite (step_colour flags s s1 e He Hstep). reflexivity.
    + now apply run_exited in Hrun.
    + discriminate.
Qed.

Lemma run_colour_last_target_witness :
  inputs_wf [Gamma.EvInput (mkRGB 9 9 9); Gamma.EvColor 0;
             Gamma.EvInput (mkRGB 200 200 200); Gamma.EvOffer 0]
  /\ exists s',
       Gamma.run default_flags (Gamma.Run healthy_world)
         [Gamma.EvInput (mkRGB 9 9 9); Gamma.EvColor 0;
          Gamma.EvInput (mkRGB 200 200 200); Gamma.EvOffer 0]
       = Some (Gamma.Running s')
       /\ colour (Gamma.st s') = mkRGB 200 93 40.
Proof.
  assert (Hwf : inputs_wf [Gamma.EvInput (mkRGB 9 9 9); Gamma.EvColor 0;
                           Gamma.EvInput (mkRGB 200 200 200); Gamma.EvOffer 0]).
  { unfold inputs_wf, wf_RGB, uint8. repeat constructor; simpl; lia. }
  split; [exact Hwf|].
  destruct (Gamma.run default_flags (Gamma.Run healthy_world)
              [Gamma.EvInput (mkRGB 9 9 9); Gamma.EvColor 0;
               Gamma.EvInput (mkRGB 200 200 200); Gamma.EvOffer 0])
    as [[s'|code w]|] eqn:Hrun; [|vm_compute in Hrun; discriminate..].
  exists s'. split; [reflexivity|].
  change (Gamma.Run healthy_world) with (Gamma.Running
    (Gamma.mkSys (mkSt (mkBlaster pi_blaster_File 0 0 0)
                       (add_call CallOpen healthy_world)) 0 [])) in Hrun.
  rewrite (run_colour_last_target default_flags _ _ s' Hwf Hrun).
  vm_compute. reflexivity.
Defined.

(** ** A reply is delivered once *)

Lemma step_keeps_finished (flags : Flags) (s s' : Gamma.Sys) (e : Gamma.Event) (i : nat) :
  Gamma.goroutines s !! i = Some Gamma.Finished ->
  Gamma.step flags (Gamma.Running s) e = Some (Gamma.Running s') ->
  Gamma.goroutines s' !! i = Some Gamma.Finished.
Proof.
  intros Hfin Hstep. destruct e as [c|c|j|j|j|ms]; cbn [Gamma.step] in Hstep.
  - destruct (Gamma.setAll flags c (Gamma.st s)); [|discriminate].
    injection Hstep as <-. exact Hfin.
  - injection Hstep as <-. cbn [Gamma.goroutines].
    rewrite lookup_app_l; [exact Hfin|]. eapply lookup_lt_Some, Hfin.
  - destruct (Gamma.goroutines s !! j) as [[c| |]|] eqn:Hj; try discriminate.
    injection Hstep as <-. cbn [Gamma.goroutines].
    rewrite list_lookup_insert_ne; [exact Hfin|]. intros ->. congruence.
  - destruct (Gamma.goroutines s !! j) as [[|c snapshot deadline|]|] eqn:Hj;
      try discriminate.
    injection Hstep as <-. cbn [Gamma.goroutines].
    rewrite list_lookup_insert_ne; [exact Hfin|]. intros ->. congruence.
  - destruct (Gamma.goroutines s !! j) as [[|c snapshot deadline|]|];
      try discriminate.
    destruct (deadline <=? Gamma.now s); discriminate.
  - destruct ((0 <? ms)
              && forallb (Gamma.may_wait_until (Gamma.now s + ms)) (Gamma.goroutines s));
      [|discriminate].
    injection Hstep as <-. exact Hfin.
Qed.

Lemma run_keeps_finished (flags : Flags) (es : list Gamma.Event) (i : nat) :
  forall s s',
    Gamma.goroutines s !! i = Some Gamma.Finished ->
    Gamma.run flags (Gamma.Running s) es = Some (Gamma.Running s') ->
    Gamma.goroutines s' !! i = Some Gamma.Finished.
Proof.
  induction es as [|e es IH]; intros s s' Hfin Hrun; cbn [Gamma.run] in Hrun.
  - injection Hrun as <-. exact Hfin.
  - destruct (Gamma.step flags (Gamma.Running s) e) as [[s1|code w]|] eqn:Hstep.
    + apply (IH s1 s'); [|exact Hrun].
      exact (step_keeps_finished flags s s1 e i Hfin Hstep).
    + now apply run_exited in Hrun.
    + discriminate.
Qed.

(** X12: once the caller has received the reply of goroutine [i], whatever
    happens afterwards that goroutine delivers no second time and its timer
    case can no longer run: a reply received in time never ends the
    process. *)
Theorem reply_delivered_once (flags : Flags) (s s1 s2 : Gamma.Sys) (i : nat)
    (es : list Gamma.Event) :
  Gamma.step flags (Gamma.Running s) (Gamma.EvReceive i) = Some (Gamma.Running s1) ->
  Gamma.run flags (Gamma.Running s1) es = Some (Gamma.Running s2) ->
  Gamma.step flags (Gamma.Running s2) (Gamma.EvReceive i) = None
  /\ Gamma.step flags (Gamma.Running s2) (Gamma.EvTimeout i) = None
  /\ Gamma.step flags (Gamma.Running s2) (Gamma.EvOffer i) = None.
Proof.
  intros Hrecv Hrun.
  assert (Hfin1 : Gamma.goroutines s1 !! i = Some Gamma.Finished).
  { cbn [Gamma.step] in Hrecv.
    destruct (Gamma.goroutines s !! i) as [[|c snapshot deadline|]|] eqn:Hi;
      try discriminate.
    injection Hrecv as <-. cbn [Gamma.goroutines].
    apply list_lookup_insert_eq. eapply lookup_lt_Some, Hi. }
  pose proof (run_keeps_finished flags es i s1 s2 Hfin1 Hrun) as Hfin2.
  cbn [Gamma.step]. rewrite Hfin2. repeat split; reflexivity.
Qed.

Lemma reply_delivered_once_witness :
  Gamma.step default_flags (Gamma.Running waiting_5s) (Gamma.EvReceive 0)
  = Some (Gamma.Running
            (Gamma.mkSys (Gamma.st waiting_5s) 5000 [Gamma.Finished]))
  /\ Gamma.run default_flags
       (Gamma.Running (Gamma.mkSys (Gamma.st waiting_5s) 5000 [Gamma.Finished]))
       [Gamma.EvTick 60000]
     = Some (Gamma.Running
               (Gamma.mkSys (Gamma.st waiting_5s) 65000 [Gamma.Finished]))
  /\ Gamma.step default_flags
       (Gamma.Running (Gamma.mkSys (Gamma.st waiting_5s) 65000 [Gamma.Finished]))
       (Gamma.EvTimeout 0)
     = None.
Proof.
  assert (Hrecv : Gamma.step default_flags (Gamma.Running waiting_5s) (Gamma.EvReceive 0)
                  = Some (Gamma.Running
                            (Gamma.mkSys (Gamma.st waiting_5s) 5000 [Gamma.Finished])))
    by reflexivity.
  assert (Hrun : Gamma.run default_flags
                   (Gamma.Running (Gamma.mkSys (Gamma.st waiting_5s) 5000 [Gamma.Finished]))
                   [Gamma.EvTick 60000]
                 = Some (Gamma.Running
                           (Gamma.mkSys (Gamma.st waiting_5s) 65000 [Gamma.Finished])))
    by reflexivity.
  split; [exact Hrecv|]. split; [exact Hrun|].
  exact (proj1 (proj2 (reply_delivered_once default_flags _ _ _ 0%nat _ Hrecv Hrun))).
Defined.

(** ** One handler alone with the actor *)

Lemma insert_at_end {A : Type} (l : list A) (x y : A) :
  <[length l := x]> (l ++ [y])%list = (l ++ [x])%list.
Proof.
  induction l as [|a l IH]; [reflexivity|].
  cbn [length app]. cbn [insert list_insert]. f_equal. exact IH.
Qed.

Lemma query_alone_eq (flags : Flags) (s : Gamma.Sys) :
  query_alone flags s
  = Some (colour (Gamma.st s),
          Gamma.mkSys (Gamma.st s) (Gamma.now s)
                      (Gamma.goroutines s ++ [Gamma.Finished])).
Proof.
  unfold query_alone. cbn [Gamma.run Gamma.step Gamma.goroutines Gamma.now Gamma.st].
  rewrite (list_lookup_middle (Gamma.goroutines s) [] _ _ eq_refl).
  cbn [Gamma.goroutines Gamma.now Gamma.st].
  rewrite insert_at_end.
  rewrite (list_lookup_middle (Gamma.goroutines s) [] _ _ eq_refl).
  rewrite insert_at_end. reflexivity.
Qed.

Lemma serve_report (flags : Flags) (s : Gamma.Sys) (resp : Response) :
  serve_alone flags (Gamma.withRequestedColor Gamma.report Gamma.HDone) s resp
  = Served
      (print_log (fmt_d (R (colour (Gamma.st s))) ++ " "
                    ++ fmt_d (G (colour (Gamma.st s))) ++ " "
                    ++ fmt_d (B (colour (Gamma.st s))))
         (Gamma.mkSys (Gamma.st s) (Gamma.now s)
                      (Gamma.goroutines s ++ [Gamma.Finished])))
      (mkResponse (headers resp)
                  (body resp ++ [Gamma.RGB_String (colour (Gamma.st s))])).
Proof.
  unfold Gamma.withRequestedColor. cbn [serve_alone].
  rewrite query_alone_eq. reflexivity.
Qed.

Lemma serve_set_then_report (flags : Flags) (target : RGB) (s : Gamma.Sys)
    (resp : Response) :
  wf_RGB target ->
  exists s',
    serve_alone flags
      (Gamma.HInput target (Gamma.withRequestedColor Gamma.report Gamma.HDone)) s resp
    = Served s' (mkResponse (headers resp)
                            (body resp ++ [Gamma.RGB_String (Gamma.correctColor target)]))
    /\ colour (Gamma.st s') = Gamma.correctColor target.
Proof.
  intros Hwf. cbn [serve_alone Gamma.step].
  rewrite (Gamma_setAll_eq flags target _ Hwf).
  rewrite serve_report. cbn [Gamma.st Gamma.now Gamma.goroutines].
  rewrite colour_Gamma_set.
  eexists. split; [reflexivity|]. apply colour_Gamma_set.
Qed.

(** X13: a set request served alone by the second revision: the handler
    sends the parsed target, the actor stores its correction, and the
    response body is the text of that corrected colour, not of the colour
    that was asked for. *)
Theorem serve_set (flags : Flags) (values : Values) (s : Gamma.Sys) :
  Get values "action" = "set" ->
  exists s',
    serve_alone flags (Gamma.actionHandler (inl values)) s no_response
    = Served s'
        (mkResponse []
           [Gamma.RGB_String
              (Gamma.correctColor (mkRGB (uint8_field (Get values "r"))
                                         (uint8_field (Get values "g"))
                                         (uint8_field (Get values "b"))))])
    /\ colour (Gamma.st s')
       = Gamma.correctColor (mkRGB (uint8_field (Get values "r"))
                                   (uint8_field (Get values "g"))
                                   (uint8_field (Get values "b"))).
Proof.
  intros Haction. unfold Gamma.actionHandler. rewrite Haction.
  cbn [String.eqb Ascii.eqb Bool.eqb]. rewrite !parseUint8OrZero_spec.
  destruct (serve_set_then_report flags
              (mkRGB (uint8_field (Get values "r")) (uint8_field (Get values "g"))
                     (uint8_field (Get values "b"))) s no_response)
    as (s' & Hserve & Hcol).
  { repeat split; apply uint8_field_uint8. }
  exists s'. split; [exact Hserve | exact Hcol].
Qed.

Lemma serve_set_witness :
  Get grey_query "action" = "set"
  /\ exists s',
       serve_alone default_flags (Gamma.actionHandler (inl grey_query))
         (Gamma.mkSys (opened 0 0 0) 0 []) no_response
       = Served s' (mkResponse [] ["#c85d28"])
       /\ colour (Gamma.st s') = mkRGB 200 93 40
       /\ Gamma.sent (Gamma.actionHandler (inl grey_query)) []
          = [Gamma.SetColor (mkRGB 200 200 200); Gamma.QueryColor].
Proof.
  assert (Haction : Get grey_query "action" = "set") by (vm_compute; reflexivity).
  split; [exact Haction|].
  destruct (serve_set default_flags grey_query (Gamma.mkSys (opened 0 0 0) 0 []) Haction)
    as (s' & Hserve & Hcol).
  exists s'. split; [|split].
  - rewrite Hserve. vm_compute. reflexivity.
  - rewrite Hcol. vm_compute. reflexivity.
  - vm_compute. reflexivity.
Defined.

(** X14: a lighter or darker request served alone by the second revision:
    the colour stored afterwards, which is also the colour in the response,
    is the correction of the stored colour moved by 10 per channel modulo
    256; so green and blue are scaled down again at every such request. *)
Theorem serve_lighter_darker (flags : Flags) (values : Values) (s : Gamma.Sys) :
  (Get values "action" = "lighter" ->
   exists s',
     serve_alone flags (Gamma.actionHandler (inl values)) s no_response
     = Served s'
         (mkResponse []
            [Gamma.RGB_String
               (Gamma.correctColor
                  (mkRGB ((R (colour (Gamma.st s)) + 10) mod 256)
                         ((G (colour (Gamma.st s)) + 10) mod 256)
                         ((B (colour (Gamma.st s)) + 10) mod 256)))])
     /\ colour (Gamma.st s')
        = Gamma.correctColor
            (mkRGB ((R (colour (Gamma.st s)) + 10) mod 256)
                   ((G (colour (Gamma.st s)) + 10) mod 256)
                   ((B (colour (Gamma.st s)) + 10) mod 256)))
  /\ (Get values "action" = "darker" ->
      exists s',
        serve_alone flags (Gamma.actionHandler (inl values)) s no_response
        = Served s'
            (mkResponse []
               [Gamma.RGB_String
                  (Gamma.correctColor
                     (mkRGB ((R (colour (Gamma.st s)) - 10) mod 256)
                            ((G (colour (Gamma.st s)) - 10) mod 256)
                            ((B (colour (Gamma.st s)) - 10) mod 256)))])
        /\ colour (Gamma.st s')
           = Gamma.correctColor
               (mkRGB ((R (colour (Gamma.st s)) - 10) mod 256)
                      ((G (colour (Gamma.st s)) - 10) mod 256)
                      ((B (colour (Gamma.st s)) - 10) mod 256))).
Proof.
  assert (Hmod : forall z, uint8 (z mod 256))
    by (intros z; unfold uint8; apply Z.mod_pos_bound; lia).
  split; intros Haction; unfold Gamma.actionHandler; rewrite Haction;
    cbn [String.eqb Ascii.eqb Bool.eqb];
    unfold Gamma.withRequestedColor at 1; cbn [serve_alone];
    rewrite query_alone_eq.
  - unfold Gamma.lighter, wrap8.
    edestruct (serve_set_then_report flags) as (s' & Hserve & Hcol);
      [|exists s'; split; [exact Hserve | exact Hcol]].
    repeat split; apply Hmod.
  - unfold Gamma.darker, wrap8.
    edestruct (serve_set_then_report flags) as (s' & Hserve & Hcol);
      [|exists s'; split; [exact Hserve | exact Hcol]].
    repeat split; apply Hmod.
Qed.

Lemma serve_lighter_darker_witness :
  Get lighter_query "action" = "lighter"
  /\ exists s',
       serve_alone default_flags (Gamma.actionHandler (inl lighter_query))
         (Gamma.mkSys (opened 200 93 40) 0 []) no_response
       = Served s' (mkResponse [] ["#d2300a"])
       /\ colour (Gamma.st s') = mkRGB 210 48 10.
Proof.
  assert (Haction : Get lighter_query "action" = "lighter") by (vm_compute; reflexivity).
  split; [exact Haction|].
  destruct (proj1 (serve_lighter_darker default_flags lighter_query
                     (Gamma.mkSys (opened 200 93 40) 0 [])) Haction)
    as (s' & Hserve & Hcol).
  exists s'. split.
  - rewrite Hserve. vm_compute. reflexivity.
  - rewrite Hcol. vm_compute. reflexivity.
Defined.

(** X15: the /color handler served alone answers with the content type
    text/plain and the text of the colour the actor holds, and changes
    nothing but the list of goroutines, where its reply goroutine has
    finished. *)
Theorem serve_currentColor (flags : Flags) (s : Gamma.Sys) :
  serve_alone flags Gamma.currentColorHandler s no_response
  = Served (Gamma.mkSys (Gamma.st s) (Gamma.now s)
                        (Gamma.goroutines s ++ [Gamma.Finished]))
           (mkResponse [("Content-Type", "text/plain")]
                       [Gamma.RGB_String (colour (Gamma.st s))]).
Proof.
  unfold Gamma.currentColorHandler, Gamma.withRequestedColor.
  cbn [serve_alone]. rewrite query_alone_eq. reflexivity.
Qed.

Lemma serve_currentColor_witness :
  serve_alone default_flags Gamma.currentColorHandler
    (Gamma.mkSys (opened 200 93 40) 0 []) no_response
  = Served (Gamma.mkSys (opened 200 93 40) 0 [Gamma.Finished])
           (mkResponse [("Content-Type", "text/plain")] ["#c85d28"]).
Proof.
  rewrite (serve_currentColor default_flags (Gamma.mkSys (opened 200 93 40) 0 [])).
  vm_compute. reflexivity.
Defined.

(** ** The messages of actionHandler *)

Lemma wrap8_range (z : Z) : uint8 (wrap8 z).
Proof. unfold uint8, wrap8. apply Z.mod_pos_bound. lia. Qed.

(** X16: whatever the request and whatever the actor answers, the second
    revision's [actionHandler] sends at most one SetColor, its target has
    8-bit channels, and when the query string does not parse the handler
    panics before it sends anything. *)
Theorem actionHandler_one_SetColor (q : Query) (answers : list RGB) :
  (count_SetColor (Gamma.sent (Gamma.actionHandler q) answers) <= 1)%nat
  /\ Forall (fun m => match m with
                      | Gamma.SetColor target => wf_RGB target
                      | Gamma.QueryColor => True
                      end)
            (Gamma.sent (Gamma.actionHandler q) answers)
  /\ (forall e, Gamma.sent (Gamma.actionHandler (inr e)) answers = []).
Proof.
  split; [|split; [|reflexivity]].
  - destruct q as [values|e]; [|cbn; lia].
    unfold Gamma.actionHandler.
    destruct (String.eqb (Get values "action") "lighter");
      [|destruct (String.eqb (Get values "action") "darker");
        [|destruct (String.eqb (Get values "action") "off");
          [|destruct (String.eqb (Get values "action") "set")]]];
      destruct answers as [|a1 [|a2 rest]]; cbn; lia.
  - destruct q as [values|e]; [|constructor].
    unfold Gamma.actionHandler.
    destruct (String.eqb (Get values "action") "lighter");
      [|destruct (String.eqb (Get values "action") "darker");
        [|destruct (String.eqb (Get values "action") "off");
          [|destruct (String.eqb (Get values "action") "set")]]];
      destruct answers as [|a1 [|a2 rest]];
      cbn [Gamma.sent Gamma.withRequestedColor Gamma.lighter Gamma.darker Gamma.report];
      repeat constructor;
      try apply wrap8_range; try apply parseUint8OrZero_range;
      unfold uint8; cbn [R G B]; lia.
Qed.

(** X17: the actions that read no field. For off the handler sends
    SetColor{0,0,0} and then the query of its report; for a missing or
    unknown action it sends that query alone and changes no colour. *)
Theorem actionHandler_off_unknown (values : Values) (answers : list RGB) :
  (Get values "action" = "off" ->
   Gamma.sent (Gamma.actionHandler (inl values)) answers
   = [Gamma.SetColor (mkRGB 0 0 0); Gamma.QueryColor])
  /\ (~ In (Get values "action") ["lighter"; "darker"; "off"; "set"] ->
      Gamma.sent (Gamma.actionHandler (inl values)) answers = [Gamma.QueryColor]
      /\ Fade.actionHandler (inl values) = Fade.HDone).
Proof.
  split.
  - intros Haction. unfold Gamma.actionHandler. rewrite Haction.
    cbn [String.eqb Ascii.eqb Bool.eqb Gamma.sent Gamma.withRequestedColor].
    destruct answers; reflexivity.
  - intros Hnot. unfold Gamma.actionHandler, Fade.actionHandler.
    assert (Hne : forall a, In a ["lighter"; "darker"; "off"; "set"] ->
                  String.eqb (Get values "action") a = false).
    { intros a Ha. apply String.eqb_neq. intros Heq. apply Hnot. now rewrite Heq. }
    rewrite !Hne by (simpl; tauto).
    split; [|reflexivity].
    cbn [Gamma.sent Gamma.withRequestedColor]. destruct answers; reflexivity.
Qed.

Lemma actionHandler_off_unknown_witness :
  (Get (<["action" := ["off"]]> ∅ : Values) "action" = "off"
   /\ Gamma.sent (Gamma.actionHandler (inl (<["action" := ["off"]]> ∅))) []
      = [Gamma.SetColor (mkRGB 0 0 0); Gamma.QueryColor])
  /\ (~ In (Get (∅ : Values) "action") ["lighter"; "darker"; "off"; "set"]
      /\ Gamma.sent (Gamma.actionHandler (inl ∅)) [] = [Gamma.QueryColor]).
Proof.
  assert (Hoff : Get (<["action" := ["off"]]> ∅ : Values) "action" = "off")
    by (vm_compute; reflexivity).
  assert (Hnone : ~ In (Get (∅ : Values) "action") ["lighter"; "darker"; "off"; "set"]).
  { change (Get (∅ : Values) "action") with "". simpl.
    intros [H|[H|[H|[H|[]]]]]; discriminate. }
  split.
  - split; [exact Hoff|].
    exact (proj1 (actionHandler_off_unknown (<["action" := ["off"]]> ∅) []) Hoff).
  - split; [exact Hnone|].
    exact (proj1 (proj2 (actionHandler_off_unknown ∅ []) Hnone)).
Defined.

(** ** The first revision's actor *)

Lemma incrementer_loop_blaster (f : Fade.setterFunc) (target : Z) :
  (forall v s0, exists e s1, f v s0 = Ret e s1 /\ blaster s1 = blaster s0) ->
  forall fuel i s,
    exists s', Fade.incrementer_loop fuel i target f s = Ret tt s'
               /\ blaster s' = blaster s.
Proof.
  intros Hf. induction fuel as [|fuel IH]; intros i s; cbn [Fade.incrementer_loop].
  - exists s. split; reflexivity.
  - destruct (i <? target); [|exists s; split; reflexivity].
    unfold bind. destruct (Hf i s) as (e & s1 & -> & Hb1).
    destruct (IH (wrap8 (i + 1)) s1) as (s' & Hloop & Hb').
    exists s'. split; [exact Hloop | congruence].
Qed.

Lemma decrementer_loop_blaster (f : Fade.setterFunc) (target : Z) :
  (forall v s0, exists e s1, f v s0 = Ret e s1 /\ blaster s1 = blaster s0) ->
  forall fuel i s,
    exists s', Fade.decrementer_loop fuel i target f s = Ret tt s'
               /\ blaster s' = blaster s.
Proof.
  intros Hf. induction fuel as [|fuel IH]; intros i s; cbn [Fade.decrementer_loop].
  - exists s. split; reflexivity.
  - destruct (target <? i); [|exists s; split; reflexivity].
    unfold bind. destruct (Hf i s) as (e & s1 & -> & Hb1).
    destruct (IH (wrap8 (i - 1)) s1) as (s' & Hloop & Hb').
    exists s'. split; [exact Hloop | congruence].
Qed.

Lemma setter_blaster (pin cur target : Z) (s : St) :
  exists s', Fade.setter cur target (setChannelInteger pin) s = Ret tt s'
             /\ blaster s' = blaster s.
Proof.
  assert (Hf : forall v s0, exists e s1,
               setChannelInteger pin v s0 = Ret e s1 /\ blaster s1 = blaster s0).
  { intros v s0. destruct (setChannelInteger_frame pin v s0) as (e & s1 & H1 & _ & Hb).
    exists e, s1. split; assumption. }
  unfold Fade.setter, Fade.incrementer, Fade.decrementer.
  destruct (cur <? target).
  - apply incrementer_loop_blaster, Hf.
  - apply decrementer_loop_blaster, Hf.
Qed.

Lemma Fade_setAll_blaster (flags : Flags) (c : RGB) (s : St) :
  exists s', Fade.setAll flags c s = Ret tt s' /\ blaster s' = blaster s.
Proof.
  unfold Fade.setAll, Fade.setRed, Fade.setGreen, Fade.setBlue.
  unfold bind at 1, get_blaster at 1. unfold bind at 1.
  destruct (setter_blaster (flag_R flags) (r (blaster s)) (R c) s) as (s1 & H1 & Hb1).
  change (fun val : Z => setChannelInteger (flag_R flags) val)
    with (setChannelInteger (flag_R flags)).
  rewrite H1.
  unfold bind at 1, get_blaster at 1. unfold bind at 1.
  destruct (setter_blaster (flag_G flags) (g (blaster s1)) (G c) s1) as (s2 & H2 & Hb2).
  change (fun val : Z => setChannelInteger (flag_G flags) val)
    with (setChannelInteger (flag_G flags)).
  rewrite H2.
  unfold bind at 1, get_blaster at 1.
  destruct (setter_blaster (flag_B flags) (b (blaster s2)) (B c) s2) as (s3 & H3 & Hb3).
  change (fun val : Z => setChannelInteger (flag_B flags) val)
    with (setChannelInteger (flag_B flags)).
  rewrite H3. exists s3. split; [reflexivity | congruence].
Qed.

Lemma Fade_step_blaster (flags : Flags) (p p' : Fade.Proc) (e : Fade.Event) (s s' : St) :
  Fade.step flags p e = Some p' ->
  Fade_state p = Some s -> Fade_state p' = Some s' ->
  blaster s' = blaster s.
Proof.
  intros Hstep Hs Hs'. destruct p as [s0|s0 cb|code w]; try discriminate.
  injection Hs as ->. destruct e as [c|f]; cbn [Fade.step] in Hstep.
  - destruct (Fade_setAll_blaster flags c s) as (s1 & Hset & Hb). rewrite Hset in Hstep.
    injection Hstep as <-. injection Hs' as <-. exact Hb.
  - injection Hstep as <-.
    destruct (f _) as [c k|]; injection Hs' as <-; reflexivity.
Qed.

(** X18: the first revision never assigns the colour it holds: from the
    start of [Run] on, whatever SetColor messages and functions the actor
    processes, the blaster still holds {0,0,0} and the pipe [Run] stored; so
    every function sent on [Color] is called with {0,0,0}. *)
Theorem Fade_colour_stays (flags : Flags) (w : World) (es : list Fade.Event)
    (p : Fade.Proc) (s : St) :
  Fade_run flags (Fade.Run w) es = Some p ->
  Fade_state p = Some s ->
  colour s = mkRGB 0 0 0
  /\ (forall f, Fade.step flags (Fade.Ready s) (Fade.EvColor f)
                = Some (Fade.call s (f (mkRGB 0 0 0)))).
Proof.
  intros Hrun Hs.
  assert (Hinv : forall es p0 p1 s0 s1,
             Fade_run flags p0 es = Some p1 ->
             Fade_state p0 = Some s0 -> Fade_state p1 = Some s1 ->
             blaster s1 = blaster s0).
  { clear. induction es as [|e es IH]; intros p0 p1 s0 s1 Hrun H0 H1;
      cbn [Fade_run] in Hrun.
    - injection Hrun as <-. congruence.
    - destruct (Fade.step flags p0 e) as [p'|] eqn:Hstep; [|discriminate].
      destruct (Fade_state p') as [s'|] eqn:Hs'.
      + rewrite (IH p' p1 s' s1 Hrun Hs' H1).
        exact (Fade_step_blaster flags p0 p' e s0 s' Hstep H0 Hs').
      + destruct p' as [?|? ?|code w']; try discriminate.
        destruct es; cbn [Fade_run Fade.step] in Hrun; [|discriminate].
        injection Hrun as <-. discriminate. }
  assert (Hcol : colour s = mkRGB 0 0 0).
  { unfold Fade.Run in Hrun.
    destruct (mustOpenPiBlaster (mkSt NewBlaster w)) as [file s0|code s0] eqn:Hopen.
    - unfold colour. rewrite (Hinv es _ p _ s Hrun eq_refl Hs). cbn [blaster r g b].
      rewrite mustOpenPiBlaster_cases in Hopen.
      destruct (fifo w); [destruct (daemon w)| |]; try discriminate;
        injection Hopen as _ <-; reflexivity.
    - destruct es; cbn [Fade_run Fade.step] in Hrun; [|discriminate].
      injection Hrun as <-. discriminate. }
  split; [exact Hcol|].
  intros f. cbn [Fade.step]. unfold colour in Hcol. injection Hcol as -> -> ->.
  reflexivity.
Qed.

Lemma Fade_colour_stays_witness :
  Fade_run default_flags (Fade.Run healthy_world)
    [Fade.EvInput (mkRGB 3 0 0); Fade.EvInput (mkRGB 1 2 3)]
  = Some (Fade.Ready
            (mkSt (mkBlaster pi_blaster_File 0 0 0)
               (mkWorld FifoPresent DaemonStarts false
                  [CallOpen;
                   CallWrite ("17=0.000000" ++ newline) true;
                   CallWrite ("17=0.003922" ++ newline) true;
                   CallWrite ("17=0.007843" ++ newline) true;
                   CallWrite ("17=0.000000" ++ newline) true;
                   CallWrite ("22=0.000000" ++ newline) true;
                   CallWrite ("22=0.003922" ++ newline) true;
                   CallWrite ("27=0.000000" ++ newline) true;
                   CallWrite ("27=0.003922" ++ newline) true;
                   CallWrite ("27=0.007843" ++ newline) true] [])))
  /\ colour (mkSt (mkBlaster pi_blaster_File 0 0 0)
               (mkWorld FifoPresent DaemonStarts false
                  [CallOpen;
                   CallWrite ("17=0.000000" ++ newline) true;
                   CallWrite ("17=0.003922" ++ newline) true;
                   CallWrite ("17=0.007843" ++ newline) true;
                   CallWrite ("17=0.000000" ++ newline) true;
                   CallWrite ("22=0.000000" ++ newline) true;
                   CallWrite ("22=0.003922" ++ newline) true;
                   CallWrite ("27=0.000000" ++ newline) true;
                   CallWrite ("27=0.003922" ++ newline) true;
                   CallWrite ("27=0.007843" ++ newline) true] []))
     = mkRGB 0 0 0.
Proof.
  assert (Hrun : Fade_run default_flags (Fade.Run healthy_world)
                   [Fade.EvInput (mkRGB 3 0 0); Fade.EvInput (mkRGB 1 2 3)]
                 = Some (Fade.Ready
                    (mkSt (mkBlaster pi_blaster_File 0 0 0)
                       (mkWorld FifoPresent DaemonStarts false
                          [CallOpen;
                           CallWrite ("17=0.000000" ++ newline) true;
                           CallWrite ("17=0.003922" ++ newline) true;
                           CallWrite ("17=0.007843" ++ newline) true;
                           CallWrite ("17=0.000000" ++ newline) true;
                           CallWrite ("22=0.000000" ++ newline) true;
                           CallWrite ("22=0.003922" ++ newline) true;
                           CallWrite ("27=0.000000" ++ newline) true;
                           CallWrite ("27=0.003922" ++ newline) true;
                           CallWrite ("27=0.007843" ++ newline) true] []))))
    by (vm_compute; reflexivity).
  split; [exact Hrun|].
  exact (proj1 (Fade_colour_stays default_flags healthy_world _ _ _ Hrun eq_refl)).
Defined.

Lemma wrote_all_calls_open (pin : Z) (vs : list Z) :
  forall s, pipe (blaster s) = pi_blaster_File ->
    calls (world (wrote_all pin vs s))
    = (calls (world s) ++ channel_writes pin (negb (reader_gone (world s))) vs)%list.
Proof.
  induction vs as [|v vs IH]; intros s Hopen.
  - cbn. symmetry. apply app_nil_r.
  - change (wrote_all pin (v :: vs) s) with (wrote_all pin vs (wrote_channel pin v s)).
    unfold wrote_channel. rewrite IH by (rewrite wrote_blaster; exact Hopen).
    rewrite wrote_reader, (wrote_calls_open _ s Hopen), <- app_assoc. reflexivity.
Qed.

Lemma wrote_all_log (pin : Z) (vs : list Z) :
  forall s, log (world (wrote_all pin vs s)) = log (world s).
Proof.
  induction vs as [|v vs IH]; intros s; [reflexivity|].
  change (wrote_all pin (v :: vs) s) with (wrote_all pin vs (wrote_channel pin v s)).
  rewrite IH. apply wrote_log.
Qed.

Lemma wrote_all_reader (pin : Z) (vs : list Z) :
  forall s, reader_gone (world (wrote_all pin vs s)) = reader_gone (world s).
Proof.
  induction vs as [|v vs IH]; intros s; [reflexivity|].
  change (wrote_all pin (v :: vs) s) with (wrote_all pin vs (wrote_channel pin v s)).
  rewrite IH. apply wrote_reader.
Qed.

Lemma fade_values_shape (cur target : Z) :
  length (fade_values cur target) = Z.to_nat (Z.abs (target - cur))
  /\ (cur <> target -> hd_error (fade_values cur target) = Some cur).
Proof.
  unfold fade_values. destruct (cur <? target) eqn:Hlt.
  - apply Z.ltb_lt in Hlt. unfold upward. split.
    + rewrite List.length_map, List.length_seq. f_equal. lia.
    + intros _. replace (Z.to_nat (target - cur)) with (S (Z.to_nat (target - cur - 1))) by lia.
      cbn. f_equal. lia.
  - apply Z.ltb_ge in Hlt. unfold downward. split.
    + rewrite List.length_map, List.length_seq. f_equal. lia.
    + intros Hne. replace (Z.to_nat (cur - target)) with (S (Z.to_nat (cur - target - 1))) by lia.
      cbn. f_equal. lia.
Qed.

(** X19: what the first revision's [setAll] writes, for every target and
    every colour held, the pipe being open: for red, then green, then blue,
    one write per value from the held channel value towards the target, the
    held value first and the target itself left out, that is |target - held|
    writes per channel and none for a channel already at its target; the
    colour held and the log are left as they were. *)
Theorem Fade_setAll_writes (flags : Flags) (c : RGB) (s : St) :
  wf_RGB c -> wf_RGB (colour s) -> pipe (blaster s) = pi_blaster_File ->
  (exists s',
     Fade.setAll flags c s = Ret tt s'
     /\ blaster s' = blaster s
     /\ log (world s') = log (world s)
     /\ calls (world s')
        = (calls (world s)
             ++ channel_writes (flag_R flags) (negb (reader_gone (world s)))
                  (fade_values (r (blaster s)) (R c))
             ++ channel_writes (flag_G flags) (negb (reader_gone (world s)))
                  (fade_values (g (blaster s)) (G c))
             ++ channel_writes (flag_B flags) (negb (reader_gone (world s)))
                  (fade_values (b (blaster s)) (B c)))%list)
  /\ (forall cur target,
        length (fade_values cur target) = Z.to_nat (Z.abs (target - cur))
        /\ ~ In target (fade_values cur target)
        /\ (cur <> target -> hd_error (fade_values cur target) = Some cur)).
Proof.
  intros Hc (Hr & Hg & Hb) Hopen. cbn [colour R G B] in Hr, Hg, Hb.
  split.
  - destruct (Fade_setAll_eq flags c s Hc Hr Hg Hb) as (s' & Hset & -> & Hbl).
    eexists. split; [exact Hset|]. split; [exact Hbl|].
    split; [rewrite !wrote_all_log; reflexivity|].
    rewrite wrote_all_calls_open by (rewrite !wrote_all_blaster; exact Hopen).
    rewrite wrote_all_calls_open by (rewrite !wrote_all_blaster; exact Hopen).
    rewrite wrote_all_calls_open by exact Hopen.
    rewrite !wrote_all_reader, <- !app_assoc. reflexivity.
  - intros cur target. destruct (fade_values_shape cur target) as [Hlen Hhd].
    split; [exact Hlen|]. split; [apply fade_values_miss_target | exact Hhd].
Qed.

Lemma Fade_setAll_writes_witness :
  wf_RGB (mkRGB 2 0 0) /\ wf_RGB (colour (opened 0 1 0))
  /\ pipe (blaster (opened 0 1 0)) = pi_blaster_File
  /\ exists s',
       Fade.setAll default_flags (mkRGB 2 0 0) (opened 0 1 0) = Ret tt s'
       /\ calls (world s')
          = [CallWrite ("17=0.000000" ++ newline) true;
             CallWrite ("17=0.003922" ++ newline) true;
             CallWrite ("22=0.003922" ++ newline) true].
Proof.
  assert (H1 : wf_RGB (mkRGB 2 0 0)) by (unfold wf_RGB, uint8; simpl; lia).
  assert (H2 : wf_RGB (colour (opened 0 1 0))) by (unfold wf_RGB, uint8; simpl; lia).
  assert (H3 : pipe (blaster (opened 0 1 0)) = pi_blaster_File) by reflexivity.
  split; [exact H1|]. split; [exact H2|]. split; [exact H3|].
  destruct (proj1 (Fade_setAll_writes default_flags (mkRGB 2 0 0) (opened 0 1 0) H1 H2 H3))
    as (s' & Hset & _ & _ & Hcalls).
  exists s'. split; [exact Hset|]. rewrite Hcalls. vm_compute. reflexivity.
Defined.

(** ** The first message of main *)

Lemma chanCmd_zero (pin : Z) :
  chanCmd pin (channel_fraction 0) = fmt_d pin ++ "=0.000000" ++ newline.
Proof.
  unfold chanCmd. replace (fmt_f (channel_fraction 0)) with "0.000000"
    by (vm_compute; reflexivity).
  reflexivity.
Qed.

(** X20: [main] sends RGB{} as its first message. With /dev/pi-blaster in
    place the second revision then writes the fraction 0.000000 to the red,
    green and blue pins, in that order, and holds {0,0,0}; the first
    revision writes nothing at all, because each channel already is at its
    target. *)
Theorem main_first_message (flags : Flags) (w : World) :
  fifo w = FifoPresent ->
  (exists s',
     Gamma.run flags (Gamma.Run w) [Gamma.EvInput (mkRGB 0 0 0)]
     = Some (Gamma.Running s')
     /\ colour (Gamma.st s') = mkRGB 0 0 0
     /\ Gamma.goroutines s' = []
     /\ log (world (Gamma.st s')) = log w
     /\ calls (world (Gamma.st s'))
        = (calls w
             ++ [CallOpen;
                 CallWrite (fmt_d (flag_R flags) ++ "=0.000000" ++ newline)
                           (negb (reader_gone w));
                 CallWrite (fmt_d (flag_G flags) ++ "=0.000000" ++ newline)
                           (negb (reader_gone w));
                 CallWrite (fmt_d (flag_B flags) ++ "=0.000000" ++ newline)
                           (negb (reader_gone w))])%list)
  /\ Fade_run flags (Fade.Run w) [Fade.EvInput (mkRGB 0 0 0)] = Some (Fade.Run w).
Proof.
  intros Hfifo.
  assert (Hopen : mustOpenPiBlaster (mkSt NewBlaster w)
                  = Ret pi_blaster_File (mkSt NewBlaster (add_call CallOpen w)))
    by (rewrite mustOpenPiBlaster_cases, Hfifo; reflexivity).
  assert (Hwf : wf_RGB (mkRGB 0 0 0)) by (unfold wf_RGB, uint8; simpl; lia).
  split.
  - unfold Gamma.Run. rewrite Hopen. cbn [Gamma.run Gamma.step Gamma.st blaster r g b world].
    rewrite (Gamma_setAll_eq flags _ _ Hwf).
    eexists. split; [reflexivity|]. cbn [Gamma.st Gamma.goroutines].
    split; [rewrite colour_Gamma_set; vm_compute; reflexivity|].
    split; [reflexivity|].
    split; [rewrite Gamma_set_log; reflexivity|].
    rewrite Gamma_set_calls_open by reflexivity.
    replace (Gamma.correctColor (mkRGB 0 0 0)) with (mkRGB 0 0 0)
      by (vm_compute; reflexivity).
    cbn [R G B world blaster add_call calls reader_gone].
    rewrite !chanCmd_zero, <- app_assoc. reflexivity.
  - unfold Fade.Run. rewrite Hopen. reflexivity.
Qed.

Lemma main_first_message_witness :
  fifo healthy_world = FifoPresent
  /\ Gamma.run default_flags (Gamma.Run healthy_world) [Gamma.EvInput (mkRGB 0 0 0)]
     = Some (Gamma.Running
               (Gamma.mkSys
                  (mkSt (mkBlaster pi_blaster_File 0 0 0)
                     (mkWorld FifoPresent DaemonStarts false
                        [CallOpen;
                         CallWrite ("17=0.000000" ++ newline) true;
                         CallWrite ("22=0.000000" ++ newline) true;
                         CallWrite ("27=0.000000" ++ newline) true] []))
                  0 []))
  /\ Fade_run default_flags (Fade.Run healthy_world) [Fade.EvInput (mkRGB 0 0 0)]
     = Some (Fade.Run healthy_world).
Proof.
  assert (Hfifo : fifo healthy_world = FifoPresent) by reflexivity.
  split; [exact Hfifo|].
  split; [vm_compute; reflexivity|].
  exact (proj2 (main_first_message default_flags healthy_world Hfifo)).
Defined.
